(** * Location checker: provider adapters and the session controller

    A shallow embedding of the three location providers
    (src/components/providers: NavigatorProvider, GoogleProvider, IpProvider),
    the credential store (utils/storage) and the controller (App.tsx), with
    the properties of the provider lifecycle proved about them.

    Where the sources are read from: [useNavigatorProvider] is lines 1-134 of
    src/components/providers/NavigatorProvider.tsx and [useGoogleProvider]
    lines 135-362 of the same file; [useIpProvider] is
    src/components/providers/IpProvider.tsx; the controller [App] is lines
    78-491 of src/services/wifi.ts. Line numbers in the comments below are
    those of these files.

    Conventions of the embedding.
    - A JavaScript [number] is a binary64 float ([PrimFloat.float]); the GPS
      timeout, which only ever holds the integers of the range slider, is a [Z].
    - A value read from a JSON body is a [JsValue]; [VUndefined] stands for an
      absent property.
    - Browser collaborators (window.prompt, fetch, localStorage, the callbacks
      handed to a provider) are threaded through an explicit [World]: scripted
      answers are consumed in order and every effect is appended to a trace.
    - console output is not part of the model. *)

From Stdlib Require Import ZArith List String Ascii Bool Lia DecimalString.
From Stdlib Require Import PrimFloat.
From Stdlib Require SpecFloat FloatOps.
Import ListNotations.

Set Warnings "-register-all".
Set Implicit Arguments.

Open Scope string_scope.
Open Scope Z_scope.

(* ================================================================== *)
(** ** JavaScript values, truthiness, strings and promises *)

Module Js.

Inductive JsValue : Type :=
| VUndefined
| VNull
| VBool (b : bool)
| VNum (f : float)
| VStr (s : string)
| VObj (fields : list (string * JsValue))
| VArr (items : list JsValue).

(** ToBoolean: [undefined], [null], [false], [0], [-0], [NaN] and the empty
    string are falsy, everything else is truthy. *)
Definition truthy (v : JsValue) : bool :=
  match v with
  | VUndefined | VNull => false
  | VBool b => b
  | VNum f => negb (PrimFloat.eqb f 0%float || negb (PrimFloat.eqb f f))
  | VStr s => negb (String.eqb s "")
  | VObj _ | VArr _ => true
  end.

(** Truthiness of a [string] and of a [string | null]. *)
Definition truthyStr (s : string) : bool := negb (String.eqb s "").

Definition truthyKey (k : option string) : bool :=
  match k with
  | Some s => truthyStr s
  | None => false
  end.

(** [a || b] on strings where [a] may be absent. *)
Definition orElse (a : option string) (b : string) : string :=
  match a with
  | Some s => if truthyStr s then s else b
  | None => b
  end.

(** [hay.includes(needle)]. *)
Fixpoint includes (needle hay : string) : bool :=
  String.prefix needle hay
  || match hay with
     | EmptyString => false
     | String _ rest => includes needle rest
     end.

Definition isDigit (c : ascii) : bool :=
  let n := nat_of_ascii c in (48 <=? n)%nat && (n <=? 57)%nat.

Fixpoint allDigits (s : string) : bool :=
  match s with
  | EmptyString => true
  | String c rest => isDigit c && allDigits rest
  end.

(** [/^\d+$/.test(s)]: at least one character, all of them decimal digits. *)
Definition testDigits (s : string) : bool := truthyStr s && allDigits s.

Fixpoint parseDigits (acc : Z) (s : string) : Z :=
  match s with
  | EmptyString => acc
  | String c rest => parseDigits (10 * acc + (Z.of_nat (nat_of_ascii c) - 48)) rest
  end.

(** The Number value of an integer: the binary64 nearest to it, ties to
    even, infinite beyond the range. *)
Definition numberOfZ (z : Z) : float :=
  FloatOps.SF2Prim (SpecFloat.binary_normalize FloatOps.prec FloatOps.emax z 0 false).

(** [parseInt(s)] on a string of decimal digits: the Number value of the
    integer it denotes (for more than twenty digits the language leaves the
    last ones to the engine; this is what V8 gives). *)
Definition parseInt (s : string) : float := numberOfZ (parseDigits 0 s).

(** Template interpolation of an integer-valued number. *)
Definition showZ (z : Z) : string := NilZero.string_of_int (Z.to_int z).

Definition nl : string := String (ascii_of_nat 10) EmptyString.

(** A promise settles once: [resolve] and [reject] on a settled promise do
    nothing. *)
Inductive Promise (A E : Type) : Type :=
| Pending
| Fulfilled (a : A)
| Rejected (e : E).
Arguments Pending {A E}.
Arguments Fulfilled {A E} a.
Arguments Rejected {A E} e.

Definition resolve {A E} (a : A) (p : Promise A E) : Promise A E :=
  match p with
  | Pending => Fulfilled a
  | _ => p
  end.

Definition reject {A E} (e : E) (p : Promise A E) : Promise A E :=
  match p with
  | Pending => Rejected e
  | _ => p
  end.

End Js.
Import Js.

(* ================================================================== *)
(** ** types.ts *)

Module Types.

Record LocationData : Type := mkLocationData {
  lat : JsValue;
  lon : JsValue;
  accuracy : JsValue;
  provider : string;
  isLive : bool
}.

(** [class LocationError extends Error]; [name] is always "LocationError". *)
Record LocationError : Type := mkLocationError {
  message : string;
  userMessage : string;
  userDetails : string;
  status : option Z
}.

Definition newLocationError (m um ud : string) : LocationError :=
  mkLocationError m um ud None.

Definition withStatus (st : Z) (e : LocationError) : LocationError :=
  mkLocationError (message e) (userMessage e) (userDetails e) (Some st).

(** What a [throw] or a rejected promise carries: a [LocationError] or some
    other [Error] object with its [name] and [message]. *)
Inductive Thrown : Type :=
| ThrownLocation (e : LocationError)
| ThrownError (name msg : string).

End Types.
Import Types.

(* ================================================================== *)
(** ** The browser seen from a provider: prompt, storage, fetch, callbacks *)

Record WifiNetwork : Type := mkWifiNetwork {
  macAddress : string;
  signalStrength : float;
  channel : option float
}.

Record CellTower : Type := mkCellTower {
  cellId : float;
  locationAreaCode : float;
  mobileCountryCode : float;
  mobileNetworkCode : float;
  towerSignalStrength : option float
}.

(** The JSON body of the geolocation request; [None] is a property that was
    never assigned. *)
Record Payload : Type := mkPayload {
  considerIp : bool;
  radioType : option string;
  homeMobileCountryCode : option float;
  homeMobileNetworkCode : option float;
  carrierName : option string;
  cellTowersSent : option (list CellTower);
  wifiAccessPoints : option (list WifiNetwork)
}.

Inductive Event : Type :=
| Prompt (text : string) (answer : option string)
| SetApiKey (k : option string)
| StorageSet (k : string)
| StorageRemove
| Fetch (url : string) (body : option Payload)
| OnLocationUpdate (ld : LocationData)
| OnError (e : LocationError).

(** What [fetch] followed by [response.json()] yields: a rejection (network
    failure, unparsable body) or a status with its parsed body. *)
Inductive HttpOutcome (Body : Type) : Type :=
| FetchRejects (name msg : string)
| Responds (st : Z) (data : Body).
Arguments FetchRejects {Body} name msg.
Arguments Responds {Body} st data.

(** [response.ok]. *)
Definition ok (st : Z) : bool := (200 <=? st) && (st <=? 299).

Inductive Completion (A : Type) : Type :=
| Normal (a : A)
| Throw (t : Thrown).
Arguments Normal {A} a.
Arguments Throw {A} t.

Section Browser.

Variable Body : Type.

Record World : Type := mkWorld {
  stored : option string;                 (* localStorage: google_geolocation_api_key *)
  apiKeyState : option string;            (* the apiKey state as last set, seen by the next render *)
  answers : list (option string);         (* what the user will type into window.prompt *)
  responses : list (HttpOutcome Body);    (* what the network will answer *)
  trace : list Event                      (* effects so far, oldest first *)
}.

Definition Eff (A : Type) : Type := World -> Completion A * World.

Definition ret {A} (a : A) : Eff A := fun w => (Normal a, w).

Definition throw {A} (t : Thrown) : Eff A := fun w => (Throw t, w).

Definition bind {A B} (c : Eff A) (k : A -> Eff B) : Eff B :=
  fun w =>
    match c w with
    | (Normal a, w') => k a w'
    | (Throw t, w') => (Throw t, w')
    end.

(** [try { c } catch (error) { h error }]. *)
Definition tryCatch {A} (c : Eff A) (h : Thrown -> Eff A) : Eff A :=
  fun w =>
    match c w with
    | (Normal a, w') => (Normal a, w')
    | (Throw t, w') => h t w'
    end.

Definition emit (e : Event) (w : World) : World :=
  mkWorld (stored w) (apiKeyState w) (answers w) (responses w) (trace w ++ [e]).

(** [window.prompt(text)]; a dialog the script has no answer for is dismissed. *)
Definition prompt (text : string) : Eff (option string) :=
  fun w =>
    match answers w with
    | [] => (Normal None, emit (Prompt text None) w)
    | a :: rest =>
        (Normal a,
         emit (Prompt text a)
              (mkWorld (stored w) (apiKeyState w) rest (responses w) (trace w)))
    end.

Definition setApiKey (k : option string) : Eff unit :=
  fun w =>
    (Normal tt,
     emit (SetApiKey k) (mkWorld (stored w) k (answers w) (responses w) (trace w))).

(** utils/storage.ts *)
Definition getStoredApiKey (w : World) : option string := stored w.

Definition setStoredApiKey (k : string) : Eff unit :=
  fun w =>
    (Normal tt,
     emit (StorageSet k)
          (mkWorld (Some k) (apiKeyState w) (answers w) (responses w) (trace w))).

Definition removeStoredApiKey : Eff unit :=
  fun w =>
    (Normal tt,
     emit StorageRemove
          (mkWorld None (apiKeyState w) (answers w) (responses w) (trace w))).

(** [await fetch(url, ...)] then [await response.json()]; with nothing left to
    answer the request fails the way an unreachable host does. *)
Definition fetch (url : string) (body : option Payload) : Eff (Z * Body) :=
  fun w =>
    match responses w with
    | [] => (Throw (ThrownError "TypeError" "Failed to fetch"),
             emit (Fetch url body) w)
    | r :: rest =>
        let w' := emit (Fetch url body)
                       (mkWorld (stored w) (apiKeyState w) (answers w) rest (trace w)) in
        match r with
        | FetchRejects n m => (Throw (ThrownError n m), w')
        | Responds st data => (Normal (st, data), w')
        end
    end.

Definition onLocationUpdate (ld : LocationData) : Eff unit :=
  fun w => (Normal tt, emit (OnLocationUpdate ld) w).

Definition onError (e : LocationError) : Eff unit :=
  fun w => (Normal tt, emit (OnError e) w).

End Browser.

Arguments ret {Body A} a.
Arguments throw {Body A} t.
Arguments prompt {Body} text.
Arguments setApiKey {Body} k.
Arguments setStoredApiKey {Body} k.
Arguments removeStoredApiKey {Body}.
Arguments fetch {Body} url body.
Arguments onLocationUpdate {Body} ld.
Arguments onError {Body} e.

Notation "x <- c ;; k" := (bind c (fun x => k))
  (at level 61, c at next level, right associativity).
Notation "c ;;; k" := (bind c (fun _ => k))
  (at level 61, right associativity).

(** Observations on a trace. *)
Definition isFetch (e : Event) : bool :=
  match e with Fetch _ _ => true | _ => false end.

Definition isPrompt (e : Event) : bool :=
  match e with Prompt _ _ => true | _ => false end.

Definition fetches (t : list Event) : list Event := filter isFetch t.
Definition prompts (t : list Event) : list Event := filter isPrompt t.

(* ================================================================== *)
(** ** components/providers/GoogleProvider.tsx: [useGoogleProvider] *)

Module GoogleProvider.

Record NetworkInfo : Type := mkNetworkInfo {
  mcc : string;
  mnc : string;
  carrier : string
}.

(** The response bodies of the geolocation API, by their documented shapes:
    [{ location: { lat, lng }, accuracy }] and [{ error: { message } }].
    [errorMessage] is [data.error?.message]; [location] is [None] when the
    body has no [location]. *)
Record GoogleBody : Type := mkGoogleBody {
  errorMessage : option string;
  location : option (JsValue * JsValue);
  bodyAccuracy : JsValue
}.

(** One render of [useGoogleProvider]: the props and the state values the
    closure [getLocation] captures. A call of [getLocation] from inside
    [getLocation] is a call of the same closure. *)
Record Render : Type := mkRender {
  useWifi : bool;
  useCellular : bool;
  useIp : bool;
  networkInfo : NetworkInfo;
  apiKey : option string;
  wifiNetworks : list WifiNetwork;
  cellTowers : list CellTower
}.

Definition GWorld : Type := World GoogleBody.
Definition G (A : Type) : Type := Eff GoogleBody A.

Definition noApiKeyError : LocationError :=
  newLocationError "No API key provided" "API key required"
    "Please provide a valid Google Geolocation API key to use this provider.".

Definition noMethodsError : LocationError :=
  newLocationError "No methods selected" "No location methods selected"
    "Please select at least one location method (WiFi, Cellular, or IP)".

Definition invalidMccError : LocationError :=
  newLocationError "Invalid MCC" "Invalid Mobile Country Code"
    "Mobile Country Code must be numeric".

Definition invalidMncError : LocationError :=
  newLocationError "Invalid MNC" "Invalid Mobile Network Code"
    "Mobile Network Code must be numeric".

Definition insufficientWifiError : LocationError :=
  newLocationError "Insufficient WiFi data" "WiFi location unavailable"
    "At least 2 WiFi access points are required for WiFi-based location. Please enable IP or Cellular methods.".

Definition invalidApiKeyError : LocationError :=
  newLocationError "Invalid API Key" "API Key Error"
    "The provided API key is not valid. Please check your API key and try again.".

Definition rateLimitError : LocationError :=
  newLocationError "Rate limit exceeded" "Too many requests"
    "You have exceeded the quota for API requests. Please wait a moment and try again.".

Definition badRequestError (data : GoogleBody) : LocationError :=
  newLocationError (orElse (errorMessage data) "Bad Request") "Request Error"
    ("The request was invalid. "
       ++ orElse (errorMessage data) "Please check your settings and try again.").

Definition apiError (data : GoogleBody) : LocationError :=
  newLocationError (orElse (errorMessage data) "Google Geolocation API error") "API Error"
    ("Failed to get location using Google Geolocation API. "
       ++ orElse (errorMessage data) "Please try again or use a different provider.").

Definition unexpectedError (msg : string) : LocationError :=
  newLocationError (orElse (Some msg) "Unknown error") "Google Geolocation error"
    "An unexpected error occurred. Please try a different provider.".

Definition enterKeyText : string := "Please enter your Google Geolocation API key:".

Definition reenterKeyText : string :=
  "Your API key was invalid. Please enter a valid Google Geolocation API key:".

Definition endpoint (key : string) : string :=
  "https://www.googleapis.com/geolocation/v1/geolocate?key=" ++ key.

(** The cellular part of the payload (source lines 231-252). *)
Definition addCellular (r : Render) (p : Payload) : LocationError + Payload :=
  if useCellular r && truthyStr (mcc (networkInfo r)) && truthyStr (mnc (networkInfo r)) then
    if negb (testDigits (mcc (networkInfo r))) then inl invalidMccError
    else if negb (testDigits (mnc (networkInfo r))) then inl invalidMncError
    else
      inr (mkPayload (considerIp p)
             (Some "gsm")
             (Some (parseInt (mcc (networkInfo r))))
             (Some (parseInt (mnc (networkInfo r))))
             (if truthyStr (carrier (networkInfo r))
              then Some (carrier (networkInfo r)) else carrierName p)
             (if (0 <? Z.of_nat (List.length (cellTowers r)))
              then Some (cellTowers r) else cellTowersSent p)
             (wifiAccessPoints p))
  else inr p.

(** The Wi-Fi part of the payload (source lines 254-267). *)
Definition addWifi (r : Render) (p : Payload) : LocationError + Payload :=
  if useWifi r then
    if (0 <=? Z.of_nat (List.length (wifiNetworks r))) then
      inr (mkPayload (considerIp p) (radioType p) (homeMobileCountryCode p)
             (homeMobileNetworkCode p) (carrierName p) (cellTowersSent p)
             (Some (wifiNetworks r)))
    else if negb (useIp r) && negb (useCellular r) then inl insufficientWifiError
    else inr p
  else inr p.

Definition buildPayload (r : Render) : LocationError + Payload :=
  match addCellular r (mkPayload (useIp r) None None None None None None) with
  | inl e => inl e
  | inr p => addWifi r p
  end.

(** [response.status === 403 || (response.status === 400 &&
    data.error?.message?.includes('API key not valid'))] *)
Definition invalidKeyResponse (st : Z) (data : GoogleBody) : bool :=
  (st =? 403)
  || ((st =? 400)
      && match errorMessage data with
         | Some m => includes "API key not valid" m
         | None => false
         end).

(** How one run of the body of [getLocation] ends when it does not throw:
    with a location, or at [return getLocation()]. *)
Inductive Step : Type :=
| Located (ld : LocationData)
| CallAgain.

(** The branch taken on [!response.ok] (source lines 279-325). *)
Definition onFailureStatus (st : Z) (data : GoogleBody) : G Step :=
  if invalidKeyResponse st data then
    setApiKey None ;;;
    removeStoredApiKey ;;;
    newKey <- prompt reenterKeyText ;;
    match newKey with
    | Some k =>
        if truthyStr k then
          setApiKey (Some k) ;;;
          setStoredApiKey k ;;;
          ret CallAgain
        else throw (ThrownLocation (withStatus st invalidApiKeyError))
    | None => throw (ThrownLocation (withStatus st invalidApiKeyError))
    end
  else if st =? 429 then throw (ThrownLocation (withStatus st rateLimitError))
  else if st =? 400 then throw (ThrownLocation (withStatus st (badRequestError data)))
  else throw (ThrownLocation (withStatus st (apiError data))).

(** The [try] block (source lines 226-338). Reading [data.location.lat] off a
    body without [location] raises the engine's TypeError (V8's wording). *)
Definition tryBlock (r : Render) (currentApiKey : string) : G Step :=
  match buildPayload r with
  | inl e => throw (ThrownLocation e)
  | inr payload =>
      resp <- fetch (endpoint currentApiKey) (Some payload) ;;
      let '(st, data) := resp in
      if negb (ok st) then onFailureStatus st data
      else
        match location data with
        | None =>
            throw (ThrownError "TypeError"
                     "Cannot read properties of undefined (reading 'lat')")
        | Some (la, lo) =>
            let locationData := mkLocationData la lo (bodyAccuracy data) "google" false in
            onLocationUpdate locationData ;;;
            ret (Located locationData)
        end
  end.

(** The [catch] block (source lines 339-352). *)
Definition catchBlock (error : Thrown) : G Step :=
  let error' :=
    match error with
    | ThrownLocation e => e
    | ThrownError _ msg => unexpectedError msg
    end in
  onError error' ;;;
  throw (ThrownLocation error').

(** The prompt for a missing key (source lines 204-214). *)
Definition promptForKey : G string :=
  key <- prompt enterKeyText ;;
  match key with
  | Some k =>
      if truthyStr k then
        setApiKey (Some k) ;;;
        setStoredApiKey k ;;;
        ret k
      else throw (ThrownLocation noApiKeyError)
  | None => throw (ThrownLocation noApiKeyError)
  end.

(** [currentApiKey]: the captured [apiKey] state when it is truthy, the
    prompted key otherwise (source lines 201-215). *)
Definition obtainKey (r : Render) : G string :=
  match apiKey r with
  | Some k => if truthyStr k then ret k else promptForKey
  | None => promptForKey
  end.

(** One run of the body of [getLocation] up to its end or to the point where
    it calls itself. *)
Definition attempt (r : Render) : G Step :=
  currentApiKey <- obtainKey r ;;
  if negb (useWifi r) && negb (useCellular r) && negb (useIp r) then
    throw (ThrownLocation noMethodsError)
  else tryCatch (tryBlock r currentApiKey) catchBlock.

(** [getLocation]. The self-call [return getLocation()] sits in the [try]
    block without [await]: the promise of the outer call adopts that of the
    inner one, and a rejection of the inner call does not pass through the
    outer [catch]. [None] is a run that needs more than [fuel] calls. *)
Fixpoint getLocation (fuel : nat) (r : Render) (w : GWorld)
  : option (Completion LocationData * GWorld) :=
  match fuel with
  | O => None
  | S fuel' =>
      match attempt r w with
      | (Normal (Located ld), w') => Some (Normal ld, w')
      | (Normal CallAgain, w') => getLocation fuel' r w'
      | (Throw t, w') => Some (Throw t, w')
      end
  end.

Definition cleanup (w : GWorld) : GWorld := w.

End GoogleProvider.

(* ================================================================== *)
(** ** components/providers/IpProvider.tsx: [useIpProvider] *)

Module IpProvider.

(** The body of the lookup service, [{ latitude, longitude }]; a property the
    body lacks reads as [VUndefined]. *)
Record IpBody : Type := mkIpBody {
  latitude : JsValue;
  longitude : JsValue
}.

Definition IWorld : Type := World IpBody.
Definition I (A : Type) : Type := Eff IpBody A.

Definition rateLimitError : LocationError :=
  newLocationError "Rate limit exceeded" "Rate limit exceeded"
    "Too many requests to IP geolocation service. Please wait a moment and try again.".

Definition serviceError : LocationError :=
  newLocationError "IP Geolocation service error" "IP Geolocation error"
    "Failed to get location using IP address. Please try a different provider.".

Definition invalidDataError : LocationError :=
  newLocationError "Invalid location data" "Invalid location data"
    "The IP geolocation service returned invalid data. Please try a different provider.".

Definition networkError (msg : string) : LocationError :=
  newLocationError msg "Network error"
    "Failed to connect to IP geolocation service. Please check your internet connection and try again.".

Definition unknownError (msg : string) : LocationError :=
  newLocationError (orElse (Some msg) "Unknown error") "IP Geolocation error"
    "An unexpected error occurred while getting location from IP. Please try a different provider.".

(** The [try] block (source lines 10-60). *)
Definition tryBlock : I LocationData :=
  resp <- fetch "https://ipapi.co/json/" None ;;
  let '(st, data) := resp in
  if negb (ok st) then
    if st =? 429 then throw (ThrownLocation (withStatus st rateLimitError))
    else throw (ThrownLocation (withStatus st serviceError))
  else if negb (truthy (latitude data)) || negb (truthy (longitude data)) then
    throw (ThrownLocation invalidDataError)
  else
    let locationData :=
      mkLocationData (latitude data) (longitude data) (VNum 5000%float) "ip" false in
    onLocationUpdate locationData ;;;
    ret locationData.

(** The [catch] block (source lines 61-83). *)
Definition catchBlock (error : Thrown) : I LocationData :=
  let error' :=
    match error with
    | ThrownLocation e => e
    | ThrownError name msg =>
        if String.eqb name "TypeError" && includes "fetch" msg
        then networkError msg
        else unknownError msg
    end in
  onError error' ;;;
  throw (ThrownLocation error').

Definition getLocation : I LocationData := tryCatch tryBlock catchBlock.

Definition cleanup (w : IWorld) : IWorld := w.

End IpProvider.

(* ================================================================== *)
(** ** components/providers/NavigatorProvider.tsx: [useNavigatorProvider] *)

Module NavigatorProvider.

(** [GeolocationPosition] and [GeolocationPositionError]. *)
Record Position : Type := mkPosition {
  latitude : float;
  longitude : float;
  coordsAccuracy : float;
  timestamp : Z
}.

Record PositionError : Type := mkPositionError {
  code : Z;
  errorText : string
}.

Definition PERMISSION_DENIED : Z := 1.
Definition POSITION_UNAVAILABLE : Z := 2.
Definition TIMEOUT : Z := 3.

Record Props : Type := mkProps {
  gpsTimeout : Z;
  liveTracking : bool
}.

Record PositionOptions : Type := mkPositionOptions {
  enableHighAccuracy : bool;
  timeout : Z;
  maximumAge : Z
}.

(** What an acquisition asked of [navigator.geolocation]. *)
Inductive Request : Type :=
| NoRequest
| WatchPosition (id : Z) (opts : PositionOptions)
| GetCurrentPosition (opts : PositionOptions).

(** The device side of the provider: whether the browser has geolocation,
    [watchIdRef.current], the identifier the next [watchPosition] returns,
    the watches registered and not cleared, and the [clearWatch] calls made
    (oldest first). *)
Record Device : Type := mkDevice {
  supported : bool;
  watchIdRef : option Z;
  nextWatchId : Z;
  watching : list Z;
  cleared : list Z
}.

(** One call of [getLocation]: the promise it returned and the
    [onLocationUpdate] calls its handlers made (oldest first). *)
Record Acquisition : Type := mkAcquisition {
  request : Request;
  promise : Promise LocationData LocationError;
  updates : list LocationData
}.

(** [cleanup]. Without [navigator.geolocation] the call of [clearWatch] is a
    property read on [undefined] and throws (V8's wording). *)
Definition cleanup (d : Device) : Completion Device :=
  match watchIdRef d with
  | Some id =>
      if negb (id =? 0) then
        if supported d then
          Normal (mkDevice (supported d) None (nextWatchId d)
                           (filter (fun w => negb (w =? id)) (watching d))
                           (cleared d ++ [id]))
        else
          Throw (ThrownError "TypeError"
                   "Cannot read properties of undefined (reading 'clearWatch')")
      else Normal d
  | None => Normal d
  end.

Definition notSupportedError : LocationError :=
  newLocationError "Geolocation not supported" "Browser doesn't support location"
    "Please use a modern browser that supports geolocation or try a different provider.".

Definition gap : string := nl ++ "              " ++ nl.

Definition permissionDetails : string :=
  "Please enable location services in your browser settings and try again."
  ++ gap ++ "For Chrome: Settings > Privacy and Security > Site Settings > Location"
  ++ gap ++ "For Firefox: Settings > Privacy & Security > Permissions > Location"
  ++ gap ++ "For Safari: Settings > Websites > Location Services".

Definition unavailableDetails : string :=
  "Unable to determine your location. This could be due to:"
  ++ gap ++ "- GPS signal is blocked (are you indoors?)"
  ++ gap ++ "- Device location hardware issues"
  ++ gap ++ "- No GPS fix available"
  ++ gap ++ "Please try again or use a different provider.".

Definition timeoutDetails (gpsTimeout : Z) : string :=
  "Request timed out after " ++ showZ gpsTimeout ++ " seconds. This could be due to:"
  ++ gap ++ "- Poor GPS signal"
  ++ gap ++ "- Slow network connection"
  ++ gap ++ "Try increasing the timeout or use a different provider.".

Definition handlePosition (p : Props) (position : Position) (a : Acquisition)
  : Acquisition :=
  let locationData :=
    mkLocationData (VNum (latitude position)) (VNum (longitude position))
                   (VNum (coordsAccuracy position)) "navigator" (liveTracking p) in
  mkAcquisition (request a)
                (resolve locationData (promise a))
                (updates a ++ [locationData]).

Definition handleError (p : Props) (err : PositionError) (a : Acquisition)
  : Acquisition :=
  let '(userMessage, userDetails) :=
    if code err =? PERMISSION_DENIED then
      ("Location access denied", permissionDetails)
    else if code err =? POSITION_UNAVAILABLE then
      ("Location unavailable", unavailableDetails)
    else if code err =? TIMEOUT then
      ("Location request timeout", timeoutDetails (gpsTimeout p))
    else
      ("Location error", "An unknown error occurred while getting your location.") in
  mkAcquisition (request a)
                (reject (newLocationError (errorText err) userMessage userDetails)
                        (promise a))
                (updates a).

(** [getLocation]: the acquisition it starts and what it did to the device. *)
Definition getLocation (p : Props) (d : Device) : Acquisition * Device :=
  if negb (supported d) then
    (mkAcquisition NoRequest (Rejected notSupportedError) [], d)
  else
    let options := mkPositionOptions true (gpsTimeout p * 1000) 0 in
    if liveTracking p then
      let id := nextWatchId d in
      (mkAcquisition (WatchPosition id options) Pending [],
       mkDevice (supported d) (Some id) (id + 1) (watching d ++ [id]) (cleared d))
    else
      (mkAcquisition (GetCurrentPosition options) Pending [], d).

(** What the platform later hands to the two callbacks of a request. *)
Inductive Signal : Type :=
| Reading (position : Position)
| Failure (err : PositionError).

Definition deliver (p : Props) (a : Acquisition) (s : Signal) : Acquisition :=
  match s with
  | Reading position => handlePosition p position a
  | Failure err => handleError p err a
  end.

Definition deliverAll (p : Props) (signals : list Signal) (a : Acquisition)
  : Acquisition :=
  fold_left (deliver p) signals a.

Definition readingData (p : Props) (position : Position) : LocationData :=
  mkLocationData (VNum (latitude position)) (VNum (longitude position))
                 (VNum (coordsAccuracy position)) "navigator" (liveTracking p).

Fixpoint readingsOf (p : Props) (signals : list Signal) : list LocationData :=
  match signals with
  | [] => []
  | Reading position :: rest => readingData p position :: readingsOf p rest
  | Failure _ :: rest => readingsOf p rest
  end.

End NavigatorProvider.

(* ================================================================== *)
(** ** App.tsx: the session controller *)

Module App.

Record ErrorInfo : Type := mkErrorInfo {
  message : string;
  details : string
}.

Inductive ToastType : Type := error_toast | warning_toast | success_toast.

Record Toast : Type := mkToast {
  toastMessage : string;
  toastType : ToastType
}.

(** The component's state and refs. [accuracyInfo] keeps the value the text
    "Location accuracy: <Math.round(accuracy)> meters" is rendered from;
    [None] is the empty text. *)
Record State : Type := mkState {
  currentProvider : string;
  currentProviderRef : string;
  loading : bool;
  error : option ErrorInfo;
  liveTracking : bool;
  gpsTimeout : Z;
  useWifi : bool;
  useCellular : bool;
  useIp : bool;
  networkInfo : GoogleProvider.NetworkInfo;
  location : option LocationData;
  toast : option Toast;
  accuracyInfo : option JsValue
}.

Definition initial : State :=
  mkState "navigator" "navigator" true None true 10 false false true
          (GoogleProvider.mkNetworkInfo "" "" "") None None None.

(** The values [handleError] may be given ([error: any]): a [LocationError],
    a platform error with a numeric [code], or another [Error]. *)
Inductive AnyError : Type :=
| Structured (e : LocationError)
| Platform (code : Z) (msg : string)
| Other (name msg : string).

Definition ofThrown (t : Thrown) : AnyError :=
  match t with
  | ThrownLocation e => Structured e
  | ThrownError name msg => Other name msg
  end.

Definition errorMessageOf (e : AnyError) : string :=
  match e with
  | Structured l => Types.message l
  | Platform _ msg => msg
  | Other _ msg => msg
  end.

Definition gap : string := nl ++ "            " ++ nl.

Definition permissionDetails : string :=
  "Please enable location services in your browser settings and try again."
  ++ gap ++ "For Chrome: Settings > Privacy and Security > Site Settings > Location"
  ++ gap ++ "For Firefox: Settings > Privacy & Security > Permissions > Location"
  ++ gap ++ "For Safari: Settings > Websites > Location Services".

Definition unavailableDetails : string :=
  "Unable to determine your location. This could be due to:"
  ++ gap ++ "- GPS signal is blocked (are you indoors?)"
  ++ gap ++ "- Device location hardware issues"
  ++ gap ++ "- No GPS fix available"
  ++ gap ++ "Please try again or use a different provider.".

Definition timeoutDetails (gpsTimeout : Z) : string :=
  "Request timed out after " ++ showZ gpsTimeout ++ " seconds. This could be due to:"
  ++ gap ++ "- Poor GPS signal"
  ++ gap ++ "- Slow network connection"
  ++ gap ++ "Try increasing the timeout or use a different provider.".

(** The three texts [handleError] derives from an error (source lines
    135-186): panel message, panel details, toast message. *)
Definition project (gpsTimeout : Z) (e : AnyError) : string * string * string :=
  let unknown :=
    (orElse (Some (errorMessageOf e)) "Unknown error occurred",
     "Please try again or use a different provider",
     "An error occurred while getting your location.") in
  match e with
  | Structured l =>
      if truthyStr (userMessage l) && truthyStr (userDetails l)
      then (userMessage l, userDetails l, userMessage l)
      else unknown
  | Platform code msg =>
      if code =? 0 then unknown
      else if code =? 1 then
        ("Location access denied", permissionDetails,
         "Location access denied. Please enable location services in your browser settings.")
      else if code =? 2 then
        ("Location unavailable", unavailableDetails,
         "Unable to determine your location. Try moving to a location with better GPS signal.")
      else if code =? 3 then
        ("Location request timeout", timeoutDetails gpsTimeout,
         "Location request timed out after " ++ showZ gpsTimeout
           ++ " seconds. Try increasing the timeout.")
      else
        (orElse (Some msg) "Unknown geolocation error occurred",
         "Please try again or use a different provider",
         "Location error occurred. Try a different provider.")
  | Other _ _ => unknown
  end.

Definition handleLocationUpdate (locationData : LocationData) (s : State) : State :=
  if negb (String.eqb (provider locationData) (currentProviderRef s)) then s
  else
    mkState (currentProvider s) (currentProviderRef s)
            false None
            (liveTracking s) (gpsTimeout s) (useWifi s) (useCellular s) (useIp s)
            (networkInfo s)
            (Some locationData) (toast s) (Some (accuracy locationData)).

(** [handleError]; [capturedTimeout] is the [gpsTimeout] of the render whose
    closure is being run. *)
Definition handleError (capturedTimeout : Z) (e : AnyError) (s : State) : State :=
  let '(msg, det, toastMsg) := project capturedTimeout e in
  mkState (currentProvider s) (currentProviderRef s)
          false (Some (mkErrorInfo msg det))
          (liveTracking s) (gpsTimeout s) (useWifi s) (useCellular s) (useIp s)
          (networkInfo s)
          (location s) (Some (mkToast toastMsg error_toast)) (accuracyInfo s).

(** What a handler asks of the providers. *)
Inductive Command : Type :=
| Cleanup (id : string)
| GetLocation (id : string).

Definition isProvider (id : string) : bool :=
  String.eqb id "navigator" || String.eqb id "google" || String.eqb id "ip".

(** [providers[id].getLocation().catch(handleError)]; for an id outside the
    record the lookup is [undefined] and no acquisition starts. *)
Definition acquire (id : string) : list Command :=
  if isProvider id then [GetLocation id] else [].

Definition cleanupProviders : list Command :=
  [Cleanup "navigator"; Cleanup "google"; Cleanup "ip"].

Definition isLiveActive (s : State) : bool :=
  String.eqb (currentProviderRef s) "navigator"
  && liveTracking s
  && match error s with Some _ => false | None => true end
  && negb (loading s).

Definition startLocationWatch (s : State) : State * list Command :=
  (mkState (currentProvider s) (currentProviderRef s)
           true None
           (liveTracking s) (gpsTimeout s) (useWifi s) (useCellular s) (useIp s)
           (networkInfo s)
           (location s) (toast s) (accuracyInfo s),
   acquire (currentProviderRef s)).

Definition handleProviderChange (id : string) (s : State) : State * list Command :=
  (mkState id id
           true None
           (liveTracking s) (gpsTimeout s) (useWifi s) (useCellular s) (useIp s)
           (networkInfo s)
           None (toast s) None,
   (cleanupProviders ++ acquire id)%list).

Definition refreshLocation (s : State) : State * list Command :=
  let reset :=
    mkState (currentProvider s) (currentProviderRef s)
            true None
            (liveTracking s) (gpsTimeout s) (useWifi s) (useCellular s) (useIp s)
            (networkInfo s)
            None (toast s) None in
  let '(s', cmds) := startLocationWatch reset in
  (s', (cleanupProviders ++ cmds)%list).

(** The effect on [useWifi, useCellular, useIp, networkInfo] (source lines
    319-324): it starts an acquisition and sets no state. *)
Definition googleOptionsEffect (s : State) : list Command :=
  if String.eqb (currentProviderRef s) "google" && negb (loading s)
  then acquire (currentProviderRef s) else [].

(** The effect on [liveTracking, gpsTimeout] (source lines 327-332). *)
Definition navigatorSettingsEffect (s : State) : list Command :=
  if String.eqb (currentProviderRef s) "navigator" && negb (loading s)
  then acquire (currentProviderRef s) else [].

Definition setUseWifi (b : bool) (s : State) : State :=
  mkState (currentProvider s) (currentProviderRef s) (loading s) (error s)
          (liveTracking s) (gpsTimeout s) b (useCellular s) (useIp s)
          (networkInfo s) (location s) (toast s) (accuracyInfo s).

(** The provider props of a render. *)
Definition googleRender (s : State) (apiKey : option string)
           (wifiNetworks : list WifiNetwork) : GoogleProvider.Render :=
  GoogleProvider.mkRender (useWifi s) (useCellular s) (useIp s) (networkInfo s)
                          apiKey wifiNetworks [].

(** How an acquisition reaches the controller: the callbacks the provider
    made, in order, then [.catch(handleError)] when its promise rejects. *)
Definition callback (capturedTimeout : Z) (s : State) (e : Event) : State :=
  match e with
  | OnLocationUpdate ld => handleLocationUpdate ld s
  | OnError err => handleError capturedTimeout (Structured err) s
  | _ => s
  end.

Definition settle (capturedTimeout : Z) (callbacks : list Event)
           (outcome : Completion LocationData) (s : State) : State :=
  let s' := fold_left (callback capturedTimeout) callbacks s in
  match outcome with
  | Normal _ => s'
  | Throw t => handleError capturedTimeout (ofThrown t) s'
  end.

End App.

(* ================================================================== *)
(** ** utils/storage.ts (src/unnamed/part_002) over a key-value [localStorage] *)

Module Storage.

(** [localStorage] as its entries, at most one per key. Only [getItem],
    [setItem] and [removeItem] are used, which do not show the order. *)
Definition LocalStorage : Type := list (string * string).

Fixpoint getItem (key : string) (ls : LocalStorage) : option string :=
  match ls with
  | [] => None
  | (k, v) :: rest => if String.eqb k key then Some v else getItem key rest
  end.

Fixpoint removeItem (key : string) (ls : LocalStorage) : LocalStorage :=
  match ls with
  | [] => []
  | (k, v) :: rest =>
      if String.eqb k key then removeItem key rest else (k, v) :: removeItem key rest
  end.

Definition setItem (key value : string) (ls : LocalStorage) : LocalStorage :=
  (key, value) :: removeItem key ls.

Definition GOOGLE_API_KEY : string := "google_geolocation_api_key".

Definition getStoredApiKey (ls : LocalStorage) : option string :=
  getItem GOOGLE_API_KEY ls.

Definition setStoredApiKey (apiKey : string) (ls : LocalStorage) : LocalStorage :=
  setItem GOOGLE_API_KEY apiKey ls.

Definition removeStoredApiKey (ls : LocalStorage) : LocalStorage :=
  removeItem GOOGLE_API_KEY ls.

End Storage.

(* ================================================================== *)
(** ** services/wifi.ts: [scanWifiNetworks]

    The file holds the function twice: lines 15-35 return the scanned list
    as it comes ([Plain]), lines 51-77 first drop some addresses
    ([Filtered]). *)

Module WifiService.

Record WifiNetwork : Type := mkWifiNetwork {
  macAddress : string;
  signalStrength : float;
  channel : option float;
  age : option float;
  signalToNoiseRatio : option float
}.

(** [{ networks, error? }]; [networks] is [None] in a body without it. *)
Record WifiResponse : Type := mkWifiResponse {
  networks : option (list WifiNetwork);
  error : option string
}.

Definition WIFI_API_URL : string := "http://localhost:8000/api/wifi".

Definition W (A : Type) : Type := Eff WifiResponse A.

(** The value of a hexadecimal digit; [None] for any other character. *)
Definition hexValue (c : ascii) : option Z :=
  let n := Z.of_nat (nat_of_ascii c) in
  if (48 <=? n) && (n <=? 57) then Some (n - 48)
  else if (65 <=? n) && (n <=? 70) then Some (n - 55)
  else if (97 <=? n) && (n <=? 102) then Some (n - 87)
  else None.

(** [Number.parseInt(s[1], 16)]: [s[1]] is one character, or [undefined] in
    a string shorter than two; the result is [None] for NaN. *)
Definition parseSecondHex (s : string) : option Z :=
  match String.get 1 s with
  | Some c => hexValue c
  | None => None
  end.

(** [2 & x]: NaN converts to 0. *)
Definition and2 (x : option Z) : Z :=
  match x with
  | Some n => Z.land 2 n
  | None => 0
  end.

Definition upper (c : ascii) : ascii :=
  let n := nat_of_ascii c in
  if (97 <=? n)%nat && (n <=? 122)%nat then ascii_of_nat (n - 32) else c.

(** [s.toUpperCase()] on the ASCII range. *)
Fixpoint toUpperCase (s : string) : string :=
  match s with
  | EmptyString => EmptyString
  | String c rest => String (upper c) (toUpperCase rest)
  end.

(** The predicate of the [filter] (source lines 59-61). *)
Definition keeps (m : WifiNetwork) : bool :=
  (0 =? and2 (parseSecondHex (macAddress m)))
  && negb (String.eqb (toUpperCase (String.substring 0 8 (macAddress m))) "00:00:5E").

Definition failedToScan : string := "Failed to scan WiFi networks".

Module Plain.

(** [scanWifiNetworks], lines 15-35. It returns [data.networks] as it is,
    [None] when the body has none. The [catch] logs and rethrows. *)
Definition scanWifiNetworks : W (option (list WifiNetwork)) :=
  tryCatch
    (resp <- fetch WIFI_API_URL None ;;
     let '(st, data) := resp in
     if negb (ok st) then throw (ThrownError "Error" (orElse (error data) failedToScan))
     else
       match error data with
       | Some e => if truthyStr e then throw (ThrownError "Error" e) else ret (networks data)
       | None => ret (networks data)
       end)
    (fun e => throw e).

End Plain.

Module Filtered.

(** [scanWifiNetworks], lines 51-77. The list is filtered before the status
    is looked at; [data.networks.filter] on a body without [networks] raises
    the engine's TypeError (V8's wording). *)
Definition scanWifiNetworks : W (list WifiNetwork) :=
  tryCatch
    (resp <- fetch WIFI_API_URL None ;;
     let '(st, data) := resp in
     match networks data with
     | None =>
         throw (ThrownError "TypeError"
                  "Cannot read properties of undefined (reading 'filter')")
     | Some all =>
         let kept := filter keeps all in
         if negb (ok st) then throw (ThrownError "Error" (orElse (error data) failedToScan))
         else
           match error data with
           | Some e => if truthyStr e then throw (ThrownError "Error" e) else ret kept
           | None => ret kept
           end
     end)
    (fun e => throw e).

End Filtered.

End WifiService.

(* ================================================================== *)
(** ** components/Map.tsx (src/unnamed/part_001): the refs of [Map] and its
    two effects *)

Module MapView.

(** The calls made on Leaflet, oldest first in [calls]. *)
Inductive Call : Type :=
| CreateMap (lat lon : JsValue) (zoom : Z)
| AddTileLayer (url : string)
| RemoveMap
| SetView (lat lon : JsValue) (zoom : Z)
| CreateMarker (lat lon : JsValue)
| OpenPopup (text : string)
| MoveMarker (lat lon : JsValue)
| CreateCircle (lat lon radius : JsValue)
| MoveCircle (lat lon : JsValue)
| SetRadius (radius : JsValue).

Record View : Type := mkView {
  centerLat : JsValue;
  centerLon : JsValue;
  zoom : Z
}.

Record Marker : Type := mkMarker {
  markerLat : JsValue;
  markerLon : JsValue
}.

Record Circle : Type := mkCircle {
  circleLat : JsValue;
  circleLon : JsValue;
  radius : JsValue
}.

(** [mapRef], [markerRef] and [circleRef] with what the objects they point
    to currently show. *)
Record Refs : Type := mkRefs {
  mapRef : option View;
  markerRef : option Marker;
  circleRef : option Circle;
  calls : list Call
}.

Definition unmounted : Refs := mkRefs None None None [].

Definition tiles : string := "https://{s}.tile.openstreetmap.org/{z}/{x}/{y}.png".

(** The mount effect (source lines 16-26). *)
Definition mount (r : Refs) : Refs :=
  match mapRef r with
  | None =>
      mkRefs (Some (mkView (VNum 0%float) (VNum 0%float) 2))
             (markerRef r) (circleRef r)
             (calls r ++ [CreateMap (VNum 0%float) (VNum 0%float) 2; AddTileLayer tiles])
  | Some _ => r
  end.

(** Its cleanup (source lines 28-40). *)
Definition unmount (r : Refs) : Refs :=
  match mapRef r with
  | Some _ => mkRefs None None None (calls r ++ [RemoveMap])
  | None => mkRefs None None None (calls r)
  end.

(** The effect on [location] (source lines 44-85). *)
Definition onLocation (location : option LocationData) (r : Refs) : Refs :=
  match location, mapRef r with
  | Some l, Some view =>
      let view' :=
        match markerRef r with
        | None => mkView (lat l) (lon l) 15
        | Some _ => view
        end in
      let viewCalls :=
        match markerRef r with
        | None => [SetView (lat l) (lon l) 15]
        | Some _ => []
        end in
      let markerCalls :=
        match markerRef r with
        | Some _ => [MoveMarker (lat l) (lon l)]
        | None => [CreateMarker (lat l) (lon l); OpenPopup "You are here!"]
        end in
      let circleCalls :=
        match circleRef r with
        | Some _ => [MoveCircle (lat l) (lon l); SetRadius (accuracy l)]
        | None => [CreateCircle (lat l) (lon l) (accuracy l)]
        end in
      mkRefs (Some view')
             (Some (mkMarker (lat l) (lon l)))
             (Some (mkCircle (lat l) (lon l) (accuracy l)))
             (calls r ++ viewCalls ++ markerCalls ++ circleCalls)
  | _, _ => r
  end.

(** The [location] prop as it changes over time. *)
Definition onLocations (locations : list (option LocationData)) (r : Refs) : Refs :=
  fold_left (fun refs l => onLocation l refs) locations r.

End MapView.

(* ================================================================== *)
(** ** components/StatusIndicator.tsx (src/unnamed/part_000) and
    components/Toast.tsx *)

Module StatusIndicator.

(** The class of the dot (source lines 20-28). *)
Definition dotClass (isLiveActive loading : bool) (error : option App.ErrorInfo) : string :=
  if isLiveActive then "bg-green-500 animate-pulse"
  else match error with
       | Some _ => "bg-red-500"
       | None => if loading then "bg-yellow-500" else "bg-gray-400"
       end.

End StatusIndicator.

Module Toast.

(** The colours of the box (source lines 11-17) and whether the icon is
    drawn (line 21). *)
Definition boxClass (type : App.ToastType) : string :=
  match type with
  | App.error_toast => "bg-red-100 border-l-4 border-red-500 text-red-700"
  | App.warning_toast => "bg-yellow-100 border-l-4 border-yellow-500 text-yellow-700"
  | App.success_toast => "bg-green-100 border-l-4 border-green-500 text-green-700"
  end.

Definition hasIcon (type : App.ToastType) : bool :=
  match type with
  | App.error_toast => true
  | _ => false
  end.

End Toast.

(* ================================================================== *)
(** ** App.tsx: what is rendered and the form controls *)

Module Controls.

Import App.

(** [providers[id].name]; [None] for an id outside the record. *)
Definition providerName (id : string) : option string :=
  if String.eqb id "navigator" then Some "Device GPS/Location"
  else if String.eqb id "google" then Some "Google Geolocation API"
  else if String.eqb id "ip" then Some "IP-based Location"
  else None.

(** [statusMessage] (source lines 230-236); reading [name] off a missing
    provider throws (V8's wording). *)
Definition statusMessage (s : State) : Completion string :=
  match error s with
  | Some _ => Normal "Tracking inactive"
  | None =>
      if loading s then Normal "Getting location..."
      else if isLiveActive s then Normal "Live tracking active"
      else match providerName (currentProviderRef s) with
           | Some name => Normal ("Using " ++ name)
           | None =>
               Throw (ThrownError "TypeError"
                        "Cannot read properties of undefined (reading 'name')")
           end
  end.

(** The dot [StatusIndicator] is rendered with. *)
Definition dot (s : State) : string :=
  StatusIndicator.dotClass (isLiveActive s) (loading s) (error s).

Definition setLiveTracking (b : bool) (s : State) : State :=
  mkState (currentProvider s) (currentProviderRef s) (loading s) (error s)
          b (gpsTimeout s) (useWifi s) (useCellular s) (useIp s)
          (networkInfo s) (location s) (toast s) (accuracyInfo s).

Definition setGpsTimeout (z : Z) (s : State) : State :=
  mkState (currentProvider s) (currentProviderRef s) (loading s) (error s)
          (liveTracking s) z (useWifi s) (useCellular s) (useIp s)
          (networkInfo s) (location s) (toast s) (accuracyInfo s).

Definition setUseCellular (b : bool) (s : State) : State :=
  mkState (currentProvider s) (currentProviderRef s) (loading s) (error s)
          (liveTracking s) (gpsTimeout s) (useWifi s) b (useIp s)
          (networkInfo s) (location s) (toast s) (accuracyInfo s).

Definition setUseIp (b : bool) (s : State) : State :=
  mkState (currentProvider s) (currentProviderRef s) (loading s) (error s)
          (liveTracking s) (gpsTimeout s) (useWifi s) (useCellular s) b
          (networkInfo s) (location s) (toast s) (accuracyInfo s).

Definition setNetworkInfo (f : GoogleProvider.NetworkInfo -> GoogleProvider.NetworkInfo)
           (s : State) : State :=
  mkState (currentProvider s) (currentProviderRef s) (loading s) (error s)
          (liveTracking s) (gpsTimeout s) (useWifi s) (useCellular s) (useIp s)
          (f (networkInfo s)) (location s) (toast s) (accuracyInfo s).

(** The three text fields: [{ ...prev, mcc: value }] and so on. *)
Definition withMcc (v : string) (n : GoogleProvider.NetworkInfo) : GoogleProvider.NetworkInfo :=
  GoogleProvider.mkNetworkInfo v (GoogleProvider.mnc n) (GoogleProvider.carrier n).

Definition withMnc (v : string) (n : GoogleProvider.NetworkInfo) : GoogleProvider.NetworkInfo :=
  GoogleProvider.mkNetworkInfo (GoogleProvider.mcc n) v (GoogleProvider.carrier n).

Definition withCarrier (v : string) (n : GoogleProvider.NetworkInfo) : GoogleProvider.NetworkInfo :=
  GoogleProvider.mkNetworkInfo (GoogleProvider.mcc n) (GoogleProvider.mnc n) v.

(** [onClose] of the toast: [setToast(null)]. *)
Definition closeToast (s : State) : State :=
  mkState (currentProvider s) (currentProviderRef s) (loading s) (error s)
          (liveTracking s) (gpsTimeout s) (useWifi s) (useCellular s) (useIp s)
          (networkInfo s) (location s) None (accuracyInfo s).

(** The effect on [currentProvider] (source lines 303-305). *)
Definition syncRef (s : State) : State :=
  mkState (currentProvider s) (currentProvider s) (loading s) (error s)
          (liveTracking s) (gpsTimeout s) (useWifi s) (useCellular s) (useIp s)
          (networkInfo s) (location s) (toast s) (accuracyInfo s).

(** What can happen to the controller: a callback from a provider, or the
    user acting on the page. *)
Inductive Action : Type :=
| LocationUpdate (ld : LocationData)
| Failed (capturedTimeout : Z) (e : AnyError)
| ProviderChange (id : string)
| Refresh
| CloseToast
| LiveTracking (b : bool)
| GpsTimeout (z : Z)
| UseWifi (b : bool)
| UseCellular (b : bool)
| UseIp (b : bool)
| Mcc (v : string)
| Mnc (v : string)
| Carrier (v : string).

Definition step (s : State) (a : Action) : State :=
  match a with
  | LocationUpdate ld => handleLocationUpdate ld s
  | Failed t e => handleError t e s
  | ProviderChange id => syncRef (fst (handleProviderChange id s))
  | Refresh => fst (refreshLocation s)
  | CloseToast => closeToast s
  | LiveTracking b => setLiveTracking b s
  | GpsTimeout z => setGpsTimeout z s
  | UseWifi b => setUseWifi b s
  | UseCellular b => setUseCellular b s
  | UseIp b => setUseIp b s
  | Mcc v => setNetworkInfo (withMcc v) s
  | Mnc v => setNetworkInfo (withMnc v) s
  | Carrier v => setNetworkInfo (withCarrier v) s
  end.

Definition run (actions : list Action) (s : State) : State :=
  fold_left step actions s.

End Controls.

(* ================================================================== *)
(** ** GoogleProvider.tsx: the effect that fills [wifiNetworks]
    (NavigatorProvider.tsx lines 175-197) *)

Module WifiEffect.

(** The effect on [useWifi] (source lines 178-197): with Wi-Fi on, a body
    that arrives replaces the list by the one-element list [[data]]; a fetch
    that fails leaves the list alone. [arrived] is the body, if any. *)
Definition effect (useWifi : bool) (arrived : option WifiNetwork)
           (wifiNetworks : list WifiNetwork) : list WifiNetwork :=
  if useWifi then
    match arrived with
    | Some data => [data]
    | None => wifiNetworks
    end
  else wifiNetworks.

(** The renders of a provider instance: each one runs the effect or not. *)
Definition effects (runs : list (bool * option WifiNetwork)) : list WifiNetwork :=
  fold_left (fun l x => effect (fst x) (snd x) l) runs [].

End WifiEffect.

(* ================================================================== *)
(** ** Observations and scenarios used in the statements *)

(** At least one of Wi-Fi, cellular and IP is selected. *)
Definition methodsSelected (r : GoogleProvider.Render) : bool :=
  GoogleProvider.useWifi r || GoogleProvider.useCellular r || GoogleProvider.useIp r.

(** One round of the invalid-key dialogue: the key typed into the first
    prompt (which opens only when the render holds no key), the response that
    rejected the request, and the key typed into the second prompt, the one
    that follows the rejection. *)
Record Round : Type := mkRound {
  enteredKey : string;
  roundStatus : Z;
  roundBody : GoogleProvider.GoogleBody;
  typedKey : string
}.

Definition roundResponse (x : Round) : HttpOutcome GoogleProvider.GoogleBody :=
  Responds (roundStatus x) (roundBody x).

Definition invalidRound (x : Round) : bool :=
  truthyStr (enteredKey x)
  && GoogleProvider.invalidKeyResponse (roundStatus x) (roundBody x)
  && truthyStr (typedKey x).

(** What a run of the body reads at its first prompt: nothing when the
    render holds a key. *)
Definition firstAnswer (r : GoogleProvider.Render) (entered : string)
  : list (option string) :=
  if truthyKey (GoogleProvider.apiKey r) then [] else [Some entered].

(** The answers one round uses up. *)
Definition roundAnswers (r : GoogleProvider.Render) (x : Round) : list (option string) :=
  (firstAnswer r (enteredKey x) ++ [Some (typedKey x)])%list.

(** The second prompts of a trace, and its writes of the key (the [apiKey]
    state and the stored key). *)
Definition isReprompt (e : Event) : bool :=
  match e with
  | Prompt text _ => String.eqb text GoogleProvider.reenterKeyText
  | _ => false
  end.

Definition isKeyWrite (e : Event) : bool :=
  match e with
  | SetApiKey _ | StorageSet _ | StorageRemove => true
  | _ => false
  end.

Definition reprompts (t : list Event) : list Event := filter isReprompt t.
Definition keyWrites (t : list Event) : list Event := filter isKeyWrite t.

(** The key writes of the first prompt, and those of one round: the key
    typed into the first prompt is stored, the rejected key is cleared, the
    key typed into the second prompt is stored. *)
Definition firstWrites (r : GoogleProvider.Render) (entered : string) : list Event :=
  if truthyKey (GoogleProvider.apiKey r) then []
  else [SetApiKey (Some entered); StorageSet entered].

Definition roundWrites (r : GoogleProvider.Render) (x : Round) : list Event :=
  (firstWrites r (enteredKey x)
   ++ [SetApiKey None; StorageRemove;
       SetApiKey (Some (typedKey x)); StorageSet (typedKey x)])%list.

(** The next prompt is left without a key: dismissed, confirmed empty, or
    not answered at all. *)
Definition declines (l : list (option string)) : bool :=
  match l with
  | [] => true
  | a :: _ => negb (truthyKey a)
  end.

(** The payload of a render when its cellular part is left out. *)
Definition withoutCellular (r : GoogleProvider.Render) : Payload :=
  mkPayload (GoogleProvider.useIp r) None None None None None
            (if GoogleProvider.useWifi r then Some (GoogleProvider.wifiNetworks r)
             else None).

(** The failure of a cellular code check: the country code is looked at
    first. *)
Definition codeError (r : GoogleProvider.Render) : LocationError :=
  if testDigits (GoogleProvider.mcc (GoogleProvider.networkInfo r))
  then GoogleProvider.invalidMncError
  else GoogleProvider.invalidMccError.

(** The failure the remote provider maps a non-success status to when the
    response is not an invalid-key one. *)
Definition statusError (st : Z) (d : GoogleProvider.GoogleBody) : LocationError :=
  withStatus st (if st =? 429 then GoogleProvider.rateLimitError
                 else if st =? 400 then GoogleProvider.badRequestError d
                 else GoogleProvider.apiError d).

(** The failure the IP provider maps a non-success status to. *)
Definition ipStatusError (st : Z) : LocationError :=
  withStatus st (if st =? 429 then IpProvider.rateLimitError
                 else IpProvider.serviceError).

(** What a prompt answered with [typed] makes the provider store. *)
Definition storesKey (typed : option string) : list Event :=
  match typed with
  | Some k => if truthyStr k then [SetApiKey (Some k); StorageSet k] else []
  | None => []
  end.

(** The watch [cleanup] would clear. *)
Definition trackedWatch (d : NavigatorProvider.Device) : list Z :=
  match NavigatorProvider.watchIdRef d with
  | Some id => if id =? 0 then [] else [id]
  | None => []
  end.

(** [watchIdRef] only ever holds what [watchPosition] returned, and
    [watchPosition] exists only in a browser with geolocation. *)
Definition wellFormed (d : NavigatorProvider.Device) : Prop :=
  trackedWatch d <> [] -> NavigatorProvider.supported d = true.

Definition present {A : Type} (o : option A) : bool :=
  match o with
  | Some _ => true
  | None => false
  end.

(** Not loading, and exactly one of result and failure present. *)
Definition terminal (s : App.State) : bool :=
  negb (App.loading s) && xorb (present (App.location s)) (present (App.error s)).

Definition deliverUpdates (lds : list LocationData) (s : App.State) : App.State :=
  fold_left (fun st ld => App.handleLocationUpdate ld st) lds s.

(** *** Scenarios *)

Module Scenario.

Import GoogleProvider.

Definition okBody : GoogleBody :=
  mkGoogleBody None (Some (VNum 10%float, VNum 20%float)) (VNum 30%float).

Definition keyRejected : GoogleBody :=
  mkGoogleBody (Some "API key not valid. Please pass a valid API key.") None VUndefined.

Definition quotaBody : GoogleBody :=
  mkGoogleBody (Some "Quota exceeded") None VUndefined.

Definition googleFix : LocationData :=
  mkLocationData (VNum 10%float) (VNum 20%float) (VNum 30%float) "google" false.

Definition blank : NetworkInfo := mkNetworkInfo "" "" "".

(** IP only, as the controller starts out. *)
Definition ipOnly (key : option string) : Render :=
  mkRender false false true blank key [] [].

Definition nothingSelected : Render :=
  mkRender false false false blank None [] [].

Definition wifiOnly : Render :=
  mkRender true false false blank (Some "key") [] [].

Definition cellularLetters : Render :=
  mkRender false true false (mkNetworkInfo "abc" "" "") (Some "key") [] [].

Definition cellularBadMnc : Render :=
  mkRender false true false (mkNetworkInfo "310" "4x" "") (Some "key") [] [].

Definition ipPayload : Payload := mkPayload true None None None None None None.

Definition world (key : option string) (typed : list (option string))
           (net : list (HttpOutcome GoogleBody)) : GWorld :=
  mkWorld key key typed net [].

(** No key held: the first prompt is answered, the key is rejected and
    replaced at the second prompt, the first prompt of the run called again
    is answered, that key is rejected too and the second prompt is
    dismissed. *)
Definition keyless : GWorld :=
  world None [Some "first"; Some "second"; Some "third"; None]
        [Responds 403 keyRejected; Responds 403 keyRejected].

(** Three answers of the service, the first two rejecting the key, and two
    keys typed into the prompts. *)
Definition twiceRejected : GWorld :=
  world (Some "old") [Some "second"; Some "third"]
        [Responds 403 keyRejected; Responds 403 keyRejected; Responds 200 okBody].

(** The controller after a switch to the remote provider whose acquisition
    succeeded; then Wi-Fi is ticked, the option effect starts an acquisition,
    and the service answers 429. *)
Definition switched : App.State := fst (App.handleProviderChange "google" App.initial).

Definition run (s : App.State) (net : list (HttpOutcome GoogleBody)) (from : App.State)
  : App.State :=
  match getLocation 1 (App.googleRender s (Some "key") []) (world (Some "key") [] net) with
  | Some (out, w') => App.settle (App.gpsTimeout s) (trace w') out from
  | None => from
  end.

Definition located : App.State := run switched [Responds 200 okBody] switched.

Definition retuned : App.State := App.setUseWifi true located.

Definition afterQuota : App.State :=
  match App.googleOptionsEffect retuned with
  | [] => retuned
  | _ => run retuned [Responds 429 quotaBody] retuned
  end.

Definition equator : IpProvider.IpBody :=
  IpProvider.mkIpBody (VNum 0%float) (VNum 20%float).

Definition ipWorld (body : IpProvider.IpBody) : IpProvider.IWorld :=
  mkWorld None None [] [Responds 200 body] [].

Definition idle : NavigatorProvider.Device :=
  NavigatorProvider.mkDevice true None 1 [] [].

Definition fix1 : NavigatorProvider.Position :=
  NavigatorProvider.mkPosition 10%float 20%float 5%float 1000.

Definition fix2 : NavigatorProvider.Position :=
  NavigatorProvider.mkPosition 11%float 21%float 6%float 2000.

End Scenario.

(** *** Observations for the further properties *)

(** A request as the remote provider may issue it for a render: to the
    endpoint with a non-empty key, carrying the payload built from the
    render's options, at least one of which is selected. *)
Definition wellFormedRequest (r : GoogleProvider.Render) (e : Event) : Prop :=
  match e with
  | Fetch url body =>
      exists k p,
        truthyStr k = true
        /\ url = GoogleProvider.endpoint k
        /\ GoogleProvider.buildPayload r = inr p
        /\ body = Some p
        /\ methodsSelected r = true
  | _ => True
  end.

(** A failure with both user texts non-empty. *)
Definition presentable (e : LocationError) : bool :=
  truthyStr (userMessage e) && truthyStr (userDetails e).

(** The world [getLocation] of the remote provider leaves behind. *)
Definition worldAfter (fuel : nat) (r : GoogleProvider.Render) (w : GoogleProvider.GWorld)
  : GoogleProvider.GWorld :=
  match GoogleProvider.getLocation fuel r w with
  | Some (_, w') => w'
  | None => w
  end.

(** The last and the first location of a history of the [location] prop. *)
Fixpoint lastSome {A : Type} (l : list (option A)) : option A :=
  match l with
  | [] => None
  | x :: rest =>
      match lastSome rest with
      | Some y => Some y
      | None => x
      end
  end.

Fixpoint firstSome {A : Type} (l : list (option A)) : option A :=
  match l with
  | [] => None
  | Some x :: _ => Some x
  | None :: rest => firstSome rest
  end.

Definition isSetView (c : MapView.Call) : bool :=
  match c with
  | MapView.SetView _ _ _ => true
  | _ => false
  end.

Definition markerAt (l : LocationData) : MapView.Marker :=
  MapView.mkMarker (lat l) (lon l).

Definition circleAt (l : LocationData) : MapView.Circle :=
  MapView.mkCircle (lat l) (lon l) (accuracy l).

(** What every state the controller can be in satisfies. *)
Definition consistent (s : App.State) : Prop :=
  App.currentProvider s = App.currentProviderRef s
  /\ App.accuracyInfo s = option_map accuracy (App.location s)
  /\ (App.loading s = true -> App.location s = None /\ App.error s = None)
  /\ match App.toast s with
     | Some t => App.toastType t = App.error_toast
     | None => True
     end.

Definition isCloseToast (a : Controls.Action) : bool :=
  match a with
  | Controls.CloseToast => true
  | _ => false
  end.

(** Watch identifiers are handed out upwards from a positive number. *)
Definition freshIds (d : NavigatorProvider.Device) : Prop :=
  0 < NavigatorProvider.nextWatchId d
  /\ Forall (fun id => id < NavigatorProvider.nextWatchId d) (NavigatorProvider.watching d).

(** [n] calls of [getLocation] in a row, none of them followed by
    [cleanup]. *)
Fixpoint starts (p : NavigatorProvider.Props) (n : nat) (d : NavigatorProvider.Device)
  : NavigatorProvider.Device :=
  match n with
  | O => d
  | S n' => snd (NavigatorProvider.getLocation p (starts p n' d))
  end.

Definition idsFrom (first : Z) (n : nat) : list Z :=
  map (fun i => first + Z.of_nat i) (seq 0 n).

(** The next answer of the scan service is a body without [networks]. *)
Definition lacksNetworks (w : World WifiService.WifiResponse) : bool :=
  match responses w with
  | Responds _ data :: _ =>
      match WifiService.networks data with
      | None => true
      | Some _ => false
      end
  | _ => false
  end.

Definition filterTypeError : Thrown :=
  ThrownError "TypeError" "Cannot read properties of undefined (reading 'filter')".

(** The outcome of the plain scan with the filter applied to its list. *)
Definition filteredOutcome (c : Completion (option (list WifiService.WifiNetwork)))
  : Completion (list WifiService.WifiNetwork) :=
  match c with
  | Normal (Some all) => Normal (filter WifiService.keeps all)
  | Normal None => Throw filterTypeError
  | Throw t => Throw t
  end.

(** *** Shapes used at the witnesses *)

Module Shapes.



(** A universally administered address and a locally administered one. *)
Definition universal : WifiService.WifiNetwork :=
  WifiService.mkWifiNetwork "3C:5A:B4:01:02:03" (-40)%float None None None.

Definition local : WifiService.WifiNetwork :=
  WifiService.mkWifiNetwork "02:00:00:00:00:01" (-70)%float None None None.

Definition scanWorld : World WifiService.WifiResponse :=
  mkWorld None None []
          [Responds 200 (WifiService.mkWifiResponse (Some [universal; local]) None)] [].

Definition paris : LocationData :=
  mkLocationData (VNum 48%float) (VNum 2%float) (VNum 5000%float) "ip" false.

Definition rome : LocationData :=
  mkLocationData (VNum 41%float) (VNum 12%float) (VNum 30%float) "google" false.

Definition store : Storage.LocalStorage :=
  [("theme", "dark"); ("google_geolocation_api_key", "old")].

End Shapes.

(* ================================================================== *)
(** * Properties *)

Unset Implicit Arguments.

(** ** The remote-API provider *)

Section GoogleFacts.

Import GoogleProvider.

Lemma methods_guard (r : Render) :
  negb (useWifi r) && negb (useCellular r) && negb (useIp r)
  = negb (methodsSelected r).
Proof.
  unfold methodsSelected.
  destruct (useWifi r), (useCellular r), (useIp r); reflexivity.
Qed.

Lemma invalid_key_not_ok (st : Z) (d : GoogleBody) :
  invalidKeyResponse st d = true -> ok st = false.
Proof.
  unfold invalidKeyResponse, ok.
  intros H. apply orb_true_iff in H. destruct H as [H | H].
  - apply Z.eqb_eq in H. subst st. reflexivity.
  - apply andb_true_iff in H. destruct H as [H _].
    apply Z.eqb_eq in H. subst st. reflexivity.
Qed.

Lemma getLocation_step (fuel : nat) (r : Render) (w : GWorld) :
  getLocation (S fuel) r w
  = match attempt r w with
    | (Normal (Located ld), w') => Some (Normal ld, w')
    | (Normal CallAgain, w') => getLocation fuel r w'
    | (Throw t, w') => Some (Throw t, w')
    end.
Proof. reflexivity. Qed.

(** A render that captured a key never opens the first prompt. *)
Lemma obtainKey_captured (r : Render) (k : string) (w : GWorld) :
  apiKey r = Some k -> truthyStr k = true -> obtainKey r w = (Normal k, w).
Proof.
  intros Hk Ht. unfold obtainKey. rewrite Hk, Ht. reflexivity.
Qed.

(** One run of the body against an invalid-key response, with a key typed
    into the second prompt: the stored key is replaced and the body asks to
    be run again. *)
Lemma attempt_invalid_key_again
      (r : Render) (k k' : string) (p : Payload) (st : Z) (d : GoogleBody)
      (more : list (option string)) (rest : list (HttpOutcome GoogleBody))
      (w w1 : GWorld) :
  obtainKey r w = (Normal k, w1) ->
  methodsSelected r = true ->
  buildPayload r = inr p ->
  invalidKeyResponse st d = true ->
  truthyStr k' = true ->
  answers w1 = Some k' :: more ->
  responses w1 = Responds st d :: rest ->
  attempt r w =
  (Normal CallAgain,
   mkWorld (Some k') (Some k') more rest
           (trace w1 ++ [Fetch (endpoint k) (Some p); SetApiKey None; StorageRemove;
                         Prompt reenterKeyText (Some k');
                         SetApiKey (Some k'); StorageSet k'])).
Proof.
  intros Hkey Hm Hp Hinv Ht' Ha Hr.
  unfold attempt, bind.
  rewrite Hkey, methods_guard, Hm. cbn [negb].
  unfold tryCatch, tryBlock. rewrite Hp.
  unfold bind, fetch. rewrite Hr.
  rewrite (invalid_key_not_ok _ _ Hinv). cbn [negb].
  unfold onFailureStatus. rewrite Hinv.
  unfold bind, setApiKey, removeStoredApiKey, prompt, setStoredApiKey, ret, emit.
  cbn. rewrite Ha. cbn. rewrite Ht'. cbn.
  repeat rewrite <- app_assoc. reflexivity.
Qed.

(** The same when the second prompt is left without a key: the stored key is
    gone and the run throws the invalid-key error carrying the response
    status, after handing it to [onError]. *)
Lemma attempt_invalid_key_declined
      (r : Render) (k : string) (p : Payload) (st : Z) (d : GoogleBody)
      (rest : list (HttpOutcome GoogleBody)) (w w1 : GWorld) :
  obtainKey r w = (Normal k, w1) ->
  methodsSelected r = true ->
  buildPayload r = inr p ->
  invalidKeyResponse st d = true ->
  declines (answers w1) = true ->
  responses w1 = Responds st d :: rest ->
  attempt r w =
  (Throw (ThrownLocation (withStatus st invalidApiKeyError)),
   mkWorld None None (tl (answers w1)) rest
           (trace w1 ++ [Fetch (endpoint k) (Some p); SetApiKey None; StorageRemove;
                         Prompt reenterKeyText (hd None (answers w1));
                         OnError (withStatus st invalidApiKeyError)])).
Proof.
  intros Hkey Hm Hp Hinv Hdec Hr.
  unfold attempt, bind.
  rewrite Hkey, methods_guard, Hm. cbn [negb].
  unfold tryCatch, tryBlock. rewrite Hp.
  unfold bind, fetch. rewrite Hr.
  rewrite (invalid_key_not_ok _ _ Hinv). cbn [negb].
  unfold onFailureStatus. rewrite Hinv.
  unfold bind, setApiKey, removeStoredApiKey, prompt, setStoredApiKey, ret, throw,
    catchBlock, onError, emit.
  cbn.
  destruct (answers w1) as [| [a |] more]; cbn in *.
  - repeat rewrite <- app_assoc; reflexivity.
  - apply negb_true_iff in Hdec. rewrite Hdec. cbn.
    repeat rewrite <- app_assoc; reflexivity.
  - repeat rewrite <- app_assoc; reflexivity.
Qed.

End GoogleFacts.

Section GoogleRetry.

Import GoogleProvider.

Lemma fetches_app (t u : list Event) : fetches (t ++ u) = (fetches t ++ fetches u)%list.
Proof. apply filter_app. Qed.

Lemma prompts_app (t u : list Event) : prompts (t ++ u) = (prompts t ++ prompts u)%list.
Proof. apply filter_app. Qed.

Lemma reprompts_app (t u : list Event) :
  reprompts (t ++ u) = (reprompts t ++ reprompts u)%list.
Proof. apply filter_app. Qed.

Lemma keyWrites_app (t u : list Event) :
  keyWrites (t ++ u) = (keyWrites t ++ keyWrites u)%list.
Proof. apply filter_app. Qed.

(** How a run of the body comes by its key when the first prompt, if it
    opens, is answered with a key: no request, no second prompt, and the key
    typed is stored. *)
Lemma obtainKey_scripted
      (r : Render) (entered : string) (more : list (option string)) (w : GWorld) :
  truthyStr entered = true ->
  answers w = (firstAnswer r entered ++ more)%list ->
  exists k w1 pre,
    obtainKey r w = (Normal k, w1)
    /\ answers w1 = more
    /\ responses w1 = responses w
    /\ trace w1 = (trace w ++ pre)%list
    /\ fetches pre = []
    /\ reprompts pre = []
    /\ keyWrites pre = firstWrites r entered.
Proof.
  intros Hent Ha.
  assert (Hprompt :
            answers w = Some entered :: more ->
            promptForKey w
            = (Normal entered,
               mkWorld (Some entered) (Some entered) more (responses w)
                       (trace w ++ [Prompt enterKeyText (Some entered);
                                    SetApiKey (Some entered); StorageSet entered]))).
  { intros Hans.
    unfold promptForKey, bind, prompt, setApiKey, setStoredApiKey, ret, emit.
    rewrite Hans. cbn. rewrite Hent. cbn.
    repeat rewrite <- app_assoc. reflexivity. }
  unfold obtainKey, firstAnswer, firstWrites in *.
  destruct (apiKey r) as [k0 |]; cbn [truthyKey] in *;
    [destruct (truthyStr k0) |].
  - exists k0, w, []. rewrite app_nil_r. repeat split; trivial.
  - eexists. eexists. eexists. split; [exact (Hprompt Ha) |].
    cbn [answers responses trace]. repeat split.
  - eexists. eexists. eexists. split; [exact (Hprompt Ha) |].
    cbn [answers responses trace]. repeat split.
Qed.

(** Any number of rejected keys, each replaced at the second prompt, and one
    more that is not replaced. *)
Lemma rounds_until_declined (r : Render) (p : Payload) :
  methodsSelected r = true ->
  buildPayload r = inr p ->
  forall (rounds : list Round) (final : string) (st : Z) (d : GoogleBody)
         (tail : list (option string)) (rest : list (HttpOutcome GoogleBody))
         (w : GWorld),
    forallb invalidRound rounds = true ->
    truthyStr final = true ->
    invalidKeyResponse st d = true ->
    declines tail = true ->
    answers w = (flat_map (roundAnswers r) rounds ++ firstAnswer r final ++ tail)%list ->
    responses w = (map roundResponse rounds ++ Responds st d :: rest)%list ->
    exists w',
      getLocation (S (List.length rounds)) r w
      = Some (Throw (ThrownLocation (withStatus st invalidApiKeyError)), w')
      /\ stored w' = None
      /\ apiKeyState w' = None
      /\ answers w' = tl tail
      /\ responses w' = rest
      /\ List.length (fetches (trace w'))
         = (List.length (fetches (trace w)) + List.length rounds + 1)%nat
      /\ reprompts (trace w')
         = (reprompts (trace w)
            ++ map (fun x => Prompt reenterKeyText (Some (typedKey x))) rounds
            ++ [Prompt reenterKeyText (hd None tail)])%list
      /\ keyWrites (trace w')
         = (keyWrites (trace w)
            ++ flat_map (roundWrites r) rounds
            ++ firstWrites r final ++ [SetApiKey None; StorageRemove])%list.
Proof.
  intros Hsel Hp rounds.
  induction rounds as [| x xs IH]; intros final st d tail rest w Hall Hfin Hinv Hdec Ha Hr.
  - cbn [flat_map map app] in Ha, Hr.
    destruct (obtainKey_scripted r final tail w Hfin Ha)
      as (k & w1 & pre & Hkey & Ha1 & Hr1 & Ht1 & Hf1 & Hq1 & Hk1).
    rewrite Hr in Hr1. rewrite <- Ha1 in Hdec.
    pose proof (attempt_invalid_key_declined r k p st d rest w w1
                  Hkey Hsel Hp Hinv Hdec Hr1) as Hrun.
    eexists. cbn [List.length]. rewrite getLocation_step, Hrun.
    split; [reflexivity |]. cbn [stored apiKeyState answers responses trace].
    rewrite Ha1, Ht1.
    split; [reflexivity |]. split; [reflexivity |].
    split; [reflexivity |]. split; [reflexivity |].
    split; [| split].
    + rewrite !fetches_app, !length_app, Hf1. cbn. lia.
    + rewrite !reprompts_app, Hq1. cbn. rewrite app_nil_r. reflexivity.
    + rewrite !keyWrites_app, Hk1. cbn. rewrite <- app_assoc. reflexivity.
  - cbn [forallb] in Hall. apply andb_true_iff in Hall. destruct Hall as [Hx Hxs].
    unfold invalidRound in Hx.
    apply andb_true_iff in Hx. destruct Hx as [Hx Hxk].
    apply andb_true_iff in Hx. destruct Hx as [Hxe Hxi].
    cbn [flat_map map app] in Ha, Hr. unfold roundAnswers at 1 in Ha.
    rewrite <- !app_assoc in Ha. cbn [app] in Ha.
    destruct (obtainKey_scripted r (enteredKey x) _ w Hxe Ha)
      as (k & w1 & pre & Hkey & Ha1 & Hr1 & Ht1 & Hf1 & Hq1 & Hk1).
    rewrite Hr in Hr1. unfold roundResponse at 1 in Hr1.
    pose proof (attempt_invalid_key_again r k (typedKey x) p _ _ _ _ w w1
                  Hkey Hsel Hp Hxi Hxk Ha1 Hr1) as Hrun.
    cbn [List.length]. rewrite getLocation_step, Hrun.
    match goal with
    | |- context [getLocation _ r ?w2] =>
        destruct (IH final st d tail rest w2 Hxs Hfin Hinv Hdec eq_refl eq_refl)
          as (w' & Hgo & Hs & Hks & Ha' & Hr' & Hf & Hq & Hk)
    end.
    exists w'. rewrite Hgo.
    cbn [stored answers responses trace] in *.
    split; [reflexivity |]. split; [exact Hs |]. split; [exact Hks |].
    split; [exact Ha' |]. split; [exact Hr' |].
    split; [| split].
    + rewrite Hf, Ht1, !fetches_app, !length_app, Hf1. cbn. lia.
    + rewrite Hq, Ht1, !reprompts_app, Hq1. cbn.
      rewrite <- !app_assoc. reflexivity.
    + rewrite Hk, Ht1, !keyWrites_app, Hk1. cbn [flat_map]. unfold roundWrites at 2.
      cbn. rewrite <- !app_assoc. reflexivity.
Qed.

(** C1 (as the code has it). A run of [getLocation] that has its key,
    captured by the render or typed into the first prompt (with a method
    selected and a payload that builds, as any request needs), and whose
    request is answered by an invalid-key response (403, or 400 whose message
    contains "API key not valid"). The key state and the stored key are
    cleared and the second prompt opens. A key typed there is written to the
    key state and to the store, and [getLocation] calls itself again on the
    world so left; nothing counts these calls. Only when the second prompt is
    left without a key does the invalid-key failure surface, carrying the
    status of the response, with the store left empty. So [rounds] rejected
    keys each replaced at the second prompt, and one more that is not, cost
    [length rounds + 1] requests and as many second prompts, and every key
    typed is stored in its turn. *)
Theorem invalid_key_retries_until_declined
        (r : Render) (p : Payload) (w : GWorld) :
  methodsSelected r = true ->
  buildPayload r = inr p ->
  (forall (k : string) (w1 : GWorld) (st : Z) (d : GoogleBody)
          (rest : list (HttpOutcome GoogleBody)),
      obtainKey r w = (Normal k, w1) ->
      responses w1 = Responds st d :: rest ->
      invalidKeyResponse st d = true ->
      (forall (k' : string) (more : list (option string)) (fuel : nat),
          answers w1 = Some k' :: more ->
          truthyStr k' = true ->
          getLocation (S fuel) r w
          = getLocation fuel r
              (mkWorld (Some k') (Some k') more rest
                 (trace w1 ++ [Fetch (endpoint k) (Some p);
                               SetApiKey None; StorageRemove;
                               Prompt reenterKeyText (Some k');
                               SetApiKey (Some k'); StorageSet k'])))
      /\ (forall fuel : nat,
            declines (answers w1) = true ->
            getLocation (S fuel) r w
            = Some (Throw (ThrownLocation (withStatus st invalidApiKeyError)),
                    mkWorld None None (tl (answers w1)) rest
                      (trace w1 ++ [Fetch (endpoint k) (Some p);
                                    SetApiKey None; StorageRemove;
                                    Prompt reenterKeyText (hd None (answers w1));
                                    OnError (withStatus st invalidApiKeyError)]))))
  /\ (forall (rounds : list Round) (final : string) (st : Z) (d : GoogleBody)
             (tail : list (option string)) (rest : list (HttpOutcome GoogleBody)),
        forallb invalidRound rounds = true ->
        truthyStr final = true ->
        invalidKeyResponse st d = true ->
        declines tail = true ->
        answers w
        = (flat_map (roundAnswers r) rounds ++ firstAnswer r final ++ tail)%list ->
        responses w = (map roundResponse rounds ++ Responds st d :: rest)%list ->
        exists w',
          getLocation (S (List.length rounds)) r w
          = Some (Throw (ThrownLocation (withStatus st invalidApiKeyError)), w')
          /\ stored w' = None
          /\ apiKeyState w' = None
          /\ answers w' = tl tail
          /\ responses w' = rest
          /\ List.length (fetches (trace w'))
             = (List.length (fetches (trace w)) + List.length rounds + 1)%nat
          /\ reprompts (trace w')
             = (reprompts (trace w)
                ++ map (fun x => Prompt reenterKeyText (Some (typedKey x))) rounds
                ++ [Prompt reenterKeyText (hd None tail)])%list
          /\ keyWrites (trace w')
             = (keyWrites (trace w)
                ++ flat_map (roundWrites r) rounds
                ++ firstWrites r final ++ [SetApiKey None; StorageRemove])%list).
Proof.
  intros Hsel Hp. split.
  - intros k w1 st d rest Hkey Hr Hinv. split.
    + intros k' more fuel Ha Ht'.
      rewrite getLocation_step.
      rewrite (attempt_invalid_key_again r k k' p st d more rest w w1
                 Hkey Hsel Hp Hinv Ht' Ha Hr).
      reflexivity.
    + intros fuel Hdec.
      rewrite getLocation_step.
      rewrite (attempt_invalid_key_declined r k p st d rest w w1
                 Hkey Hsel Hp Hinv Hdec Hr).
      reflexivity.
  - intros rounds final st d tail rest.
    exact (rounds_until_declined r p Hsel Hp rounds final st d tail rest w).
Qed.

End GoogleRetry.

Section GoogleTermination.

Import GoogleProvider.

Lemma obtainKey_answers (r : Render) (w w' : GWorld) (c : Completion string) :
  obtainKey r w = (c, w') ->
  (List.length (answers w') <= List.length (answers w))%nat
  /\ responses w' = responses w
  /\ fetches (trace w') = fetches (trace w).
Proof.
  unfold obtainKey, promptForKey, bind, prompt, setApiKey, setStoredApiKey, ret, throw, emit.
  intros H.
  destruct (apiKey r) as [k |]; [destruct (truthyStr k) |];
    try (injection H as <- <-; repeat split; auto; fail);
    destruct (answers w) as [| [a |] more] eqn:Ha; cbn in H;
    try destruct (truthyStr a); cbn in H;
    injection H as <- <-; cbn; rewrite ?Ha; cbn;
    repeat rewrite fetches_app; cbn; rewrite ?app_nil_r; repeat split; auto; lia.
Qed.

(** A self-call is only reached through a prompt that was answered: each one
    uses up an answer. *)
Lemma attempt_again_consumes (r : Render) (w w' : GWorld) :
  attempt r w = (Normal CallAgain, w') ->
  (List.length (answers w') < List.length (answers w))%nat.
Proof.
  unfold attempt, bind. intros H.
  destruct (obtainKey r w) as [[key | t] w1] eqn:Hkey; [| discriminate].
  apply obtainKey_answers in Hkey. destruct Hkey as (Hlen & _ & _).
  destruct (negb (useWifi r) && negb (useCellular r) && negb (useIp r));
    [discriminate |].
  unfold tryCatch, tryBlock in H.
  destruct (buildPayload r) as [e | payload]; [discriminate |].
  unfold bind, fetch in H.
  destruct (responses w1) as [| [n m | st data] rest]; try discriminate.
  destruct (negb (ok st)).
  - unfold onFailureStatus in H.
    destruct (invalidKeyResponse st data).
    + unfold bind, setApiKey, removeStoredApiKey, prompt, setStoredApiKey, ret, throw, emit in H.
      cbn in H.
      destruct (answers w1) as [| [a |] more] eqn:Ha; cbn in H; try discriminate.
      destruct (truthyStr a); cbn in H; try discriminate.
      injection H as <-. cbn. cbn in Hlen. lia.
    + destruct (st =? 429); [discriminate |].
      destruct (st =? 400); discriminate.
  - destruct (location data) as [[la lo] |]; discriminate.
Qed.

(** X1. [getLocation] of the remote provider returns: it calls itself only
    after a prompt was answered, so with more fuel than answers left it never
    runs out of calls. *)
Lemma getLocation_returns (fuel : nat) :
  forall (r : Render) (w : GWorld),
    (List.length (answers w) < fuel)%nat ->
    exists out w', getLocation fuel r w = Some (out, w').
Proof.
  induction fuel as [| fuel IH]; intros r w Hlt; [lia |].
  rewrite getLocation_step.
  destruct (attempt r w) as [[[ld |] | t] w1] eqn:Hrun.
  - eauto.
  - apply attempt_again_consumes in Hrun. apply IH. lia.
  - eauto.
Qed.

End GoogleTermination.

Section GooglePrompting.

Import GoogleProvider.

(** C1, counterexample. The service rejects the key twice in a row (403,
    403) and the user types a key into each prompt: the second rejection does
    not end the acquisition, a third request goes out and the acquisition
    succeeds. *)
Lemma second_rejection_is_retried :
  invalidKeyResponse 403 Scenario.keyRejected = true
  /\ exists w',
      getLocation 3 (Scenario.ipOnly (Some "old")) Scenario.twiceRejected
      = Some (Normal Scenario.googleFix, w')
      /\ List.length (fetches (trace w')) = 3%nat
      /\ List.length (prompts (trace w')) = 2%nat.
Proof.
  split; [reflexivity |].
  eexists. split; [vm_compute; reflexivity |].
  split; reflexivity.
Qed.

(** C1, the theorem at a render that holds no key: the key typed into the
    first prompt is rejected and replaced at the second prompt; the run
    called again asks for a key once more, is rejected once more, and the
    second prompt is then dismissed. *)
Lemma invalid_key_retries_witness :
  getLocation 2 (Scenario.ipOnly None) Scenario.keyless
  = getLocation 1 (Scenario.ipOnly None)
      (mkWorld (Some "second") (Some "second") [Some "third"; None]
         [Responds 403 Scenario.keyRejected]
         [Prompt enterKeyText (Some "first");
          SetApiKey (Some "first"); StorageSet "first";
          Fetch (endpoint "first") (Some Scenario.ipPayload);
          SetApiKey None; StorageRemove;
          Prompt reenterKeyText (Some "second");
          SetApiKey (Some "second"); StorageSet "second"])
  /\ exists w',
      getLocation 2 (Scenario.ipOnly None) Scenario.keyless
      = Some (Throw (ThrownLocation (withStatus 403 invalidApiKeyError)), w')
      /\ stored w' = None
      /\ apiKeyState w' = None
      /\ answers w' = []
      /\ responses w' = []
      /\ List.length (fetches (trace w')) = 2%nat
      /\ reprompts (trace w')
         = [Prompt reenterKeyText (Some "second"); Prompt reenterKeyText None]
      /\ keyWrites (trace w')
         = [SetApiKey (Some "first"); StorageSet "first";
            SetApiKey None; StorageRemove;
            SetApiKey (Some "second"); StorageSet "second";
            SetApiKey (Some "third"); StorageSet "third";
            SetApiKey None; StorageRemove].
Proof.
  destruct (invalid_key_retries_until_declined
              (Scenario.ipOnly None) Scenario.ipPayload Scenario.keyless
              eq_refl eq_refl) as [Hstep Hrounds].
  split.
  - exact (proj1 (Hstep "first" _ 403 Scenario.keyRejected
                        [Responds 403 Scenario.keyRejected]
                        eq_refl eq_refl eq_refl)
                 "second" [Some "third"; None] 1%nat eq_refl eq_refl).
  - exact (Hrounds [mkRound "first" 403 Scenario.keyRejected "second"] "third"
                   403 Scenario.keyRejected [None] []
                   eq_refl eq_refl eq_refl eq_refl eq_refl eq_refl).
Defined.

(** C2, counterexample. No stored key, no method selected, and the prompt is
    dismissed: the caller was prompted, and the failure is "No API key
    provided", not "No methods selected". *)
Lemma prompt_precedes_methods_check :
  getLocation 1 Scenario.nothingSelected (Scenario.world None [None] [])
  = Some (Throw (ThrownLocation noApiKeyError),
          mkWorld None None [] [] [Prompt enterKeyText None]).
Proof. reflexivity. Qed.

(** C2 (as the code has it). Without a captured key and with no method
    selected, [getLocation] first prompts for a key. Left without one it
    fails with "No API key provided"; given one it stores it and then fails
    with "No methods selected". Either way no request is issued and the
    failure is not reported through [onError]. *)
Theorem no_methods_fails_after_the_prompt
        (fuel : nat) (r : Render) (w : GWorld) :
  truthyKey (apiKey r) = false ->
  methodsSelected r = false ->
  exists w',
    getLocation (S fuel) r w
    = Some (Throw (ThrownLocation
                     (if truthyKey (hd None (answers w))
                      then noMethodsError else noApiKeyError)), w')
    /\ trace w'
       = (trace w ++ Prompt enterKeyText (hd None (answers w))
                  :: storesKey (hd None (answers w)))%list
    /\ answers w' = tl (answers w)
    /\ responses w' = responses w.
Proof.
  intros Hkey Hsel.
  rewrite getLocation_step. unfold attempt, bind.
  rewrite methods_guard, Hsel. cbn [negb].
  assert (Hprompt : obtainKey r w = promptForKey w).
  { unfold obtainKey. destruct (apiKey r) as [k |]; [| reflexivity].
    cbn in Hkey. rewrite Hkey. reflexivity. }
  rewrite Hprompt.
  unfold promptForKey, bind, prompt, setApiKey, setStoredApiKey, ret, throw, emit.
  destruct (answers w) as [| [a |] more] eqn:Ha; cbn.
  - eexists; repeat split; cbn; rewrite ?Ha; reflexivity.
  - destruct (truthyStr a) eqn:Hta; cbn; rewrite ?Hta; cbn.
    + eexists; repeat split; cbn; rewrite ?Ha; repeat rewrite <- app_assoc; reflexivity.
    + eexists; repeat split; cbn; rewrite ?Ha; reflexivity.
  - eexists; repeat split; cbn; rewrite ?Ha; reflexivity.
Qed.

(** C2, the theorem with a key typed into the prompt. *)
Lemma no_methods_witness :
  exists w',
    getLocation 1 Scenario.nothingSelected (Scenario.world None [Some "key"] [])
    = Some (Throw (ThrownLocation noMethodsError), w')
    /\ trace w'
       = [Prompt enterKeyText (Some "key"); SetApiKey (Some "key"); StorageSet "key"]
    /\ answers w' = []
    /\ responses w' = [].
Proof.
  exact (no_methods_fails_after_the_prompt
           0 Scenario.nothingSelected (Scenario.world None [Some "key"] [])
           eq_refl eq_refl).
Defined.

End GooglePrompting.

Section GooglePayload.

Import GoogleProvider.

(** The Wi-Fi step never refuses: the list length is never negative, so the
    branch holding the insufficient-data error is not taken. *)
Lemma addWifi_attaches (r : Render) (p : Payload) :
  useWifi r = true ->
  addWifi r p
  = inr (mkPayload (considerIp p) (radioType p) (homeMobileCountryCode p)
           (homeMobileNetworkCode p) (carrierName p) (cellTowersSent p)
           (Some (wifiNetworks r))).
Proof.
  intros Hw. unfold addWifi. rewrite Hw.
  destruct (0 <=? Z.of_nat (List.length (wifiNetworks r))) eqn:Hlen; [reflexivity |].
  apply Z.leb_gt in Hlen. lia.
Qed.

Lemma insufficient_wifi_never_raised (r : Render) :
  buildPayload r <> inl insufficientWifiError.
Proof.
  unfold buildPayload.
  destruct (addCellular r _) as [e | p] eqn:Hc.
  - unfold addCellular in Hc.
    destruct (useCellular r && _ && _); [| discriminate].
    destruct (negb (testDigits (mcc (networkInfo r)))); [injection Hc as <-; discriminate |].
    destruct (negb (testDigits (mnc (networkInfo r)))); [injection Hc as <-; discriminate |].
    discriminate.
  - destruct (useWifi r) eqn:Hw.
    + rewrite (addWifi_attaches r p Hw). discriminate.
    + unfold addWifi. rewrite Hw. discriminate.
Qed.

(** C5, the code at the failing input. Wi-Fi is the only method selected and
    no access point is known: the empty list is attached and the request is
    issued; no insufficient-data failure is raised. *)
Theorem wifi_only_without_access_points_is_requested :
  getLocation 1 Scenario.wifiOnly
              (Scenario.world (Some "key") [] [Responds 200 Scenario.okBody])
  = Some (Normal Scenario.googleFix,
          mkWorld (Some "key") (Some "key") [] []
                  [Fetch (endpoint "key")
                         (Some (mkPayload false None None None None None (Some [])));
                   OnLocationUpdate Scenario.googleFix]).
Proof. reflexivity. Qed.

End GooglePayload.

(** ** The IP provider *)

Section IpResult.

Import IpProvider.

(** C8. The service answers 200 with the body [{latitude: 0, longitude: 20}],
    a position on the equator: both coordinates are there, and the provider
    fails with "Invalid location data" where the position was to be
    returned. The guard [!data.latitude || !data.longitude] asks whether the
    values are truthy, not whether they are there, and 0 is not. *)
Lemma latitude_zero_is_rejected :
  getLocation (Scenario.ipWorld Scenario.equator)
  = (Throw (ThrownLocation invalidDataError),
     mkWorld None None [] []
             [Fetch "https://ipapi.co/json/" None; OnError invalidDataError]).
Proof. reflexivity. Qed.

(** The guard as it is written. On a success status the provider fails with
    "Invalid location data" exactly when the latitude or the longitude of the
    body is falsy (absent, null, 0, NaN, empty, false); otherwise it reports
    and returns the two values as they are, with accuracy 5000, provider "ip"
    and [isLive] false. *)
Theorem ip_success_status_result
        (st : Z) (data : IpBody) (rest : list (HttpOutcome IpBody)) (w : IWorld) :
  ok st = true ->
  responses w = Responds st data :: rest ->
  getLocation w
  = (if truthy (latitude data) && truthy (longitude data)
     then
       (Normal (mkLocationData (latitude data) (longitude data)
                               (VNum 5000%float) "ip" false),
        mkWorld (stored w) (apiKeyState w) (answers w) rest
                (trace w ++ [Fetch "https://ipapi.co/json/" None;
                             OnLocationUpdate
                               (mkLocationData (latitude data) (longitude data)
                                               (VNum 5000%float) "ip" false)]))
     else
       (Throw (ThrownLocation invalidDataError),
        mkWorld (stored w) (apiKeyState w) (answers w) rest
                (trace w ++ [Fetch "https://ipapi.co/json/" None;
                             OnError invalidDataError])))
  /\ (fst (getLocation w) = Throw (ThrownLocation invalidDataError)
      <-> truthy (latitude data) && truthy (longitude data) = false).
Proof.
  intros Hok Hr.
  assert (Heq : getLocation w
                = (if truthy (latitude data) && truthy (longitude data)
                   then
                     (Normal (mkLocationData (latitude data) (longitude data)
                                             (VNum 5000%float) "ip" false),
                      mkWorld (stored w) (apiKeyState w) (answers w) rest
                              (trace w ++ [Fetch "https://ipapi.co/json/" None;
                                           OnLocationUpdate
                                             (mkLocationData (latitude data) (longitude data)
                                                             (VNum 5000%float) "ip" false)]))
                   else
                     (Throw (ThrownLocation invalidDataError),
                      mkWorld (stored w) (apiKeyState w) (answers w) rest
                              (trace w ++ [Fetch "https://ipapi.co/json/" None;
                                           OnError invalidDataError])))).
  { unfold getLocation, tryCatch, tryBlock, bind, fetch.
    rewrite Hr, Hok. cbn [negb].
    destruct (truthy (latitude data)), (truthy (longitude data)); cbn;
      unfold emit; cbn; repeat rewrite <- app_assoc; reflexivity. }
  split; [exact Heq |].
  rewrite Heq.
  destruct (truthy (latitude data) && truthy (longitude data)); cbn [fst].
  - split; intros H; discriminate H.
  - split; intros _; reflexivity.
Qed.

(** The same at the body [{latitude: 10, longitude: 20}]. *)
Lemma ip_success_witness :
  fst (getLocation (Scenario.ipWorld (mkIpBody (VNum 10%float) (VNum 20%float))))
  = Normal (mkLocationData (VNum 10%float) (VNum 20%float) (VNum 5000%float) "ip" false).
Proof.
  exact (f_equal fst
           (proj1 (ip_success_status_result
                     200 (mkIpBody (VNum 10%float) (VNum 20%float)) []
                     (Scenario.ipWorld (mkIpBody (VNum 10%float) (VNum 20%float)))
                     eq_refl eq_refl))).
Defined.

End IpResult.

(** ** The device provider *)

Section NavigatorLifecycle.

Import NavigatorProvider.

Lemma deliver_settled (p : Props) (a : Acquisition) (s : Signal) :
  promise a <> Pending -> promise (deliver p a s) = promise a.
Proof.
  intros Hset. destruct s as [position | err]; cbn.
  - destruct (promise a); [contradiction | reflexivity | reflexivity].
  - unfold handleError.
    destruct (code err =? PERMISSION_DENIED);
      [| destruct (code err =? POSITION_UNAVAILABLE);
         [| destruct (code err =? TIMEOUT)]];
      cbn; destruct (promise a); try contradiction; reflexivity.
Qed.

Lemma deliver_updates (p : Props) (a : Acquisition) (s : Signal) :
  updates (deliver p a s) = (updates a ++ readingsOf p [s])%list.
Proof.
  destruct s as [position | err]; cbn.
  - reflexivity.
  - unfold handleError.
    destruct (code err =? PERMISSION_DENIED);
      [| destruct (code err =? POSITION_UNAVAILABLE);
         [| destruct (code err =? TIMEOUT)]];
      cbn; symmetry; apply app_nil_r.
Qed.

(** Every reading, and nothing else, reaches the update callback. *)
Lemma deliverAll_updates (p : Props) (signals : list Signal) :
  forall a : Acquisition,
    updates (deliverAll p signals a) = (updates a ++ readingsOf p signals)%list.
Proof.
  induction signals as [| s rest IH]; intros a; cbn [deliverAll fold_left].
  - cbn. symmetry. apply app_nil_r.
  - specialize (IH (deliver p a s)). unfold deliverAll in IH.
    rewrite IH, deliver_updates, <- app_assoc. f_equal.
    destruct s; reflexivity.
Qed.

(** Once settled, the promise is what it is whatever the watch reports next. *)
Lemma deliverAll_settled (p : Props) (signals : list Signal) :
  forall a : Acquisition,
    promise a <> Pending -> promise (deliverAll p signals a) = promise a.
Proof.
  induction signals as [| s rest IH]; intros a Hset; cbn [deliverAll fold_left].
  - reflexivity.
  - pose proof (deliver_settled p a s Hset) as Hp.
    assert (Hset' : promise (deliver p a s) <> Pending) by (rewrite Hp; exact Hset).
    specialize (IH (deliver p a s) Hset'). unfold deliverAll in IH.
    rewrite IH. exact Hp.
Qed.

(** C7, as the source has it. With live tracking on (and geolocation in the
    browser), [getLocation] registers a watch and returns a pending promise.
    Whatever the watch reports, every reading is handed to the update
    callback, in order. The promise is settled by the first report alone. If
    that is a reading, it fulfils the promise, and nothing the watch reports
    afterwards, further readings included, changes what the promise was
    fulfilled with. If that is an error, the promise is rejected with the
    translated error and stays rejected: the readings that follow still
    reach the update callback and fulfil nothing. *)
Theorem live_promise_resolves_on_first_reading_only
        (p : Props) (d : Device) (signals : list Signal)
        (first : Position) (later : list Signal) :
  liveTracking p = true ->
  supported d = true ->
  request (fst (getLocation p d))
  = WatchPosition (nextWatchId d) (mkPositionOptions true (gpsTimeout p * 1000) 0)
  /\ promise (fst (getLocation p d)) = Pending
  /\ updates (deliverAll p signals (fst (getLocation p d))) = readingsOf p signals
  /\ promise (deliverAll p [Reading first] (fst (getLocation p d)))
     = Fulfilled (readingData p first)
  /\ promise (deliverAll p (Reading first :: later) (fst (getLocation p d)))
     = Fulfilled (readingData p first)
  /\ (forall err : PositionError,
        promise (deliverAll p (Failure err :: later) (fst (getLocation p d)))
        = promise (handleError p err (fst (getLocation p d)))
        /\ (exists userMessage userDetails,
              promise (handleError p err (fst (getLocation p d)))
              = Rejected (newLocationError (errorText err) userMessage userDetails))
        /\ updates (deliverAll p (Failure err :: later) (fst (getLocation p d)))
           = readingsOf p later).
Proof.
  intros Hlive Hsup.
  unfold getLocation. rewrite Hsup, Hlive. cbn [negb fst].
  split; [reflexivity |]. split; [reflexivity |].
  split; [rewrite deliverAll_updates; reflexivity |].
  split; [reflexivity |].
  split.
  - cbn [deliverAll fold_left deliver].
    set (a1 := handlePosition p first _).
    assert (Hset : promise a1 <> Pending) by (cbn; discriminate).
    pose proof (deliverAll_settled p later a1 Hset) as Hp.
    unfold deliverAll in Hp. rewrite Hp. reflexivity.
  - intros err.
    set (a0 := mkAcquisition _ Pending []).
    assert (Hrej : exists userMessage userDetails,
               promise (handleError p err a0)
               = Rejected (newLocationError (errorText err) userMessage userDetails)).
    { unfold handleError.
      destruct (code err =? PERMISSION_DENIED);
        [| destruct (code err =? POSITION_UNAVAILABLE);
           [| destruct (code err =? TIMEOUT)]];
        cbn; eexists; eexists; reflexivity. }
    split; [| split; [exact Hrej |]].
    + cbn [deliverAll fold_left deliver].
      assert (Hset : promise (handleError p err a0) <> Pending).
      { destruct Hrej as (m & t & Hrej). rewrite Hrej. discriminate. }
      pose proof (deliverAll_settled p later (handleError p err a0) Hset) as Hp.
      unfold deliverAll in Hp. exact Hp.
    + rewrite deliverAll_updates. reflexivity.
Qed.

(** C7, the theorem at two readings with an error between them, and at an
    error before the two readings. *)
Lemma live_promise_witness :
  (updates (deliverAll (mkProps 10 true)
              [Reading Scenario.fix1; Failure (mkPositionError 3 "Timeout expired");
               Reading Scenario.fix2]
              (fst (getLocation (mkProps 10 true) Scenario.idle)))
   = [readingData (mkProps 10 true) Scenario.fix1;
      readingData (mkProps 10 true) Scenario.fix2]
   /\ promise (deliverAll (mkProps 10 true) [Reading Scenario.fix1]
                 (fst (getLocation (mkProps 10 true) Scenario.idle)))
      = Fulfilled (readingData (mkProps 10 true) Scenario.fix1)
   /\ promise (deliverAll (mkProps 10 true)
                 [Reading Scenario.fix1; Failure (mkPositionError 3 "Timeout expired");
                  Reading Scenario.fix2]
                 (fst (getLocation (mkProps 10 true) Scenario.idle)))
      = Fulfilled (readingData (mkProps 10 true) Scenario.fix1))
  /\ promise (deliverAll (mkProps 10 true)
                [Failure (mkPositionError 3 "Timeout expired");
                 Reading Scenario.fix1; Reading Scenario.fix2]
                (fst (getLocation (mkProps 10 true) Scenario.idle)))
     = Rejected (newLocationError "Timeout expired" "Location request timeout"
                                  (timeoutDetails 10))
  /\ updates (deliverAll (mkProps 10 true)
                [Failure (mkPositionError 3 "Timeout expired");
                 Reading Scenario.fix1; Reading Scenario.fix2]
                (fst (getLocation (mkProps 10 true) Scenario.idle)))
     = [readingData (mkProps 10 true) Scenario.fix1;
        readingData (mkProps 10 true) Scenario.fix2].
Proof.
  pose proof (live_promise_resolves_on_first_reading_only
                (mkProps 10 true) Scenario.idle
                [Reading Scenario.fix1;
                 Failure (mkPositionError 3 "Timeout expired");
                 Reading Scenario.fix2]
                Scenario.fix1
                [Failure (mkPositionError 3 "Timeout expired");
                 Reading Scenario.fix2]
                eq_refl eq_refl) as (_ & _ & Hupd & Hone & Hmany & _).
  pose proof (live_promise_resolves_on_first_reading_only
                (mkProps 10 true) Scenario.idle []
                Scenario.fix1
                [Reading Scenario.fix1; Reading Scenario.fix2]
                eq_refl eq_refl) as (_ & _ & _ & _ & _ & Herr).
  destruct (Herr (mkPositionError 3 "Timeout expired")) as (Hfirst & _ & Hlater).
  split; [split; [exact Hupd | split; [exact Hone | exact Hmany]] |].
  split; [rewrite Hfirst; reflexivity | exact Hlater].
Defined.

(** C7, against the claim as written: the watch reports a timeout before the
    first fix. The reading that follows is the first reading of the
    acquisition and reaches the update callback, and the promise is not
    resolved by it: it was rejected by the timeout and stays so. *)
Lemma timeout_before_the_first_reading :
  promise (deliverAll (mkProps 10 true)
             [Failure (mkPositionError 3 "Timeout expired"); Reading Scenario.fix1]
             (fst (getLocation (mkProps 10 true) Scenario.idle)))
  = Rejected (newLocationError "Timeout expired" "Location request timeout"
                               (timeoutDetails 10))
  /\ updates (deliverAll (mkProps 10 true)
                [Failure (mkPositionError 3 "Timeout expired"); Reading Scenario.fix1]
                (fst (getLocation (mkProps 10 true) Scenario.idle)))
     = [readingData (mkProps 10 true) Scenario.fix1]
  /\ promise (deliverAll (mkProps 10 true)
                [Failure (mkPositionError 3 "Timeout expired"); Reading Scenario.fix1]
                (fst (getLocation (mkProps 10 true) Scenario.idle)))
     <> Fulfilled (readingData (mkProps 10 true) Scenario.fix1).
Proof.
  split; [reflexivity |]. split; [reflexivity |]. discriminate.
Qed.

Lemma getLocation_wellFormed (p : Props) (d : Device) :
  wellFormed d -> wellFormed (snd (getLocation p d)).
Proof.
  unfold wellFormed, getLocation. intros Hwf.
  destruct (supported d) eqn:Hsup; cbn [negb].
  - destruct (liveTracking p); cbn; intros _; [reflexivity | exact Hsup].
  - cbn [snd]. intros H. rewrite Hsup. exact (Hwf H).
Qed.

(** C9. On a device as the provider leaves it, [cleanup] throws nothing and
    clears the tracked watch, if there is one, once; called again it throws
    nothing, clears nothing and changes nothing; with no tracked watch the
    first call already changes nothing. The [cleanup] of the remote-API and
    of the IP provider does nothing at all. *)
Theorem cleanup_twice_is_cleanup_once
        (d : Device) (gw : GoogleProvider.GWorld) (iw : IpProvider.IWorld) :
  wellFormed d ->
  (exists d1,
      cleanup d = Normal d1
      /\ cleared d1 = (cleared d ++ trackedWatch d)%list
      /\ cleanup d1 = Normal d1
      /\ (trackedWatch d = [] -> d1 = d))
  /\ GoogleProvider.cleanup (GoogleProvider.cleanup gw) = gw
  /\ IpProvider.cleanup (IpProvider.cleanup iw) = iw.
Proof.
  intros Hwf. split; [| split; reflexivity].
  unfold wellFormed, trackedWatch in *. unfold cleanup.
  destruct (watchIdRef d) as [id |] eqn:Href.
  - destruct (id =? 0) eqn:Hid; cbn [negb].
    + exists d. rewrite Href, Hid. cbn [negb].
      repeat split; trivial. symmetry; apply app_nil_r.
    + rewrite (Hwf ltac:(discriminate)).
      eexists. split; [reflexivity |]. cbn.
      repeat split. intros H; discriminate H.
  - exists d. rewrite Href. repeat split; trivial. symmetry; apply app_nil_r.
Qed.

(** C9, the theorem on a device whose watch 1 was started by [getLocation]. *)
Lemma cleanup_witness :
  exists d1,
    cleanup (snd (getLocation (mkProps 10 true) Scenario.idle)) = Normal d1
    /\ cleared d1 = [1]
    /\ cleanup d1 = Normal d1
    /\ (trackedWatch (snd (getLocation (mkProps 10 true) Scenario.idle)) = []
        -> d1 = snd (getLocation (mkProps 10 true) Scenario.idle)).
Proof.
  exact (proj1 (cleanup_twice_is_cleanup_once
                  (snd (getLocation (mkProps 10 true) Scenario.idle))
                  (Scenario.world None [] []) (Scenario.ipWorld Scenario.equator)
                  (fun _ => eq_refl))).
Defined.

End NavigatorLifecycle.

(** ** The controller *)

Section ControllerSettling.

Import App.

Lemma handleError_fields (t : Z) (e : AnyError) (s : State) :
  loading (handleError t e s) = false
  /\ error (handleError t e s)
     = Some (mkErrorInfo (fst (fst (project t e))) (snd (fst (project t e))))
  /\ toast (handleError t e s) = Some (mkToast (snd (project t e)) error_toast)
  /\ location (handleError t e s) = location s
  /\ currentProviderRef (handleError t e s) = currentProviderRef s.
Proof.
  unfold handleError. destruct (project t e) as [[msg det] toastMsg].
  repeat split.
Qed.

Lemma handleLocationUpdate_accepted (ld : LocationData) (s : State) :
  provider ld = currentProviderRef s ->
  handleLocationUpdate ld s
  = mkState (currentProvider s) (currentProviderRef s) false None
            (liveTracking s) (gpsTimeout s) (useWifi s) (useCellular s) (useIp s)
            (networkInfo s) (Some ld) (toast s) (Some (accuracy ld)).
Proof.
  intros Hsame. unfold handleLocationUpdate.
  rewrite Hsame, String.eqb_refl. reflexivity.
Qed.

Lemma handleLocationUpdate_stale (ld : LocationData) (s : State) :
  provider ld <> currentProviderRef s -> handleLocationUpdate ld s = s.
Proof.
  intros Hdiff. unfold handleLocationUpdate.
  destruct (String.eqb_spec (provider ld) (currentProviderRef s)) as [Heq | _].
  - contradiction.
  - reflexivity.
Qed.

(** C3, counterexample. The remote provider is active and has delivered a
    location; ticking Wi-Fi makes the option effect start an acquisition,
    which the service answers with 429. The controller ends not loading, with
    the failure and the earlier result both present. *)
Lemma failure_leaves_the_result_in_place :
  googleOptionsEffect Scenario.retuned = [GetLocation "google"]
  /\ loading Scenario.afterQuota = false
  /\ error Scenario.afterQuota
     = Some (mkErrorInfo "Too many requests"
               "You have exceeded the quota for API requests. Please wait a moment and try again.")
  /\ location Scenario.afterQuota = Some Scenario.googleFix
  /\ terminal Scenario.afterQuota = false.
Proof. repeat split. Qed.

(** C3 (as the code has it). Both ways of settling clear [loading]. An update
    from the active provider sets the result and clears the failure. A
    failure sets the failure and leaves the result as it was: exactly one of
    the two is present afterwards when, and only when, no result was present
    before. *)
Theorem settling_clears_loading_and_failure_keeps_result
        (t : Z) (e : AnyError) (ld : LocationData) (s : State) :
  provider ld = currentProviderRef s ->
  (loading (handleLocationUpdate ld s) = false
   /\ error (handleLocationUpdate ld s) = None
   /\ location (handleLocationUpdate ld s) = Some ld
   /\ terminal (handleLocationUpdate ld s) = true)
  /\ (loading (handleError t e s) = false
      /\ present (error (handleError t e s)) = true
      /\ location (handleError t e s) = location s
      /\ terminal (handleError t e s) = negb (present (location s))).
Proof.
  intros Hsame. split.
  - rewrite (handleLocationUpdate_accepted ld s Hsame). repeat split.
  - destruct (handleError_fields t e s) as (Hl & He & _ & Hloc & _).
    split; [exact Hl |]. split; [rewrite He; reflexivity |].
    split; [exact Hloc |].
    unfold terminal. rewrite Hl, He, Hloc. cbn.
    destruct (present (location s)); reflexivity.
Qed.

(** C3, the theorem at the first result of the remote provider and at a
    rate-limit failure arriving after it. *)
Lemma settling_witness :
  (loading (handleLocationUpdate Scenario.googleFix Scenario.switched) = false
   /\ error (handleLocationUpdate Scenario.googleFix Scenario.switched) = None
   /\ location (handleLocationUpdate Scenario.googleFix Scenario.switched)
      = Some Scenario.googleFix
   /\ terminal (handleLocationUpdate Scenario.googleFix Scenario.switched) = true)
  /\ (loading (handleError 10 (Structured GoogleProvider.rateLimitError) Scenario.switched)
      = false
      /\ present (error (handleError 10 (Structured GoogleProvider.rateLimitError)
                                     Scenario.switched)) = true
      /\ location (handleError 10 (Structured GoogleProvider.rateLimitError)
                               Scenario.switched) = None
      /\ terminal (handleError 10 (Structured GoogleProvider.rateLimitError)
                               Scenario.switched) = true).
Proof.
  exact (settling_clears_loading_and_failure_keeps_result
           10 (Structured GoogleProvider.rateLimitError)
           Scenario.googleFix Scenario.switched eq_refl).
Defined.

(** C4. An update whose provider id is not the active one leaves the whole
    controller state as it is; and after a switch to a provider, any run of
    updates tagged with other ids leaves the state the switch produced as it
    is. *)
Theorem stale_updates_are_discarded
        (s : State) (ld : LocationData) (switchTo : string)
        (late : list LocationData) :
  provider ld <> currentProviderRef s ->
  Forall (fun l => provider l <> switchTo) late ->
  handleLocationUpdate ld s = s
  /\ deliverUpdates late (fst (handleProviderChange switchTo s))
     = fst (handleProviderChange switchTo s).
Proof.
  intros Hdiff Hlate. split.
  - apply handleLocationUpdate_stale. exact Hdiff.
  - unfold deliverUpdates.
    induction Hlate as [| l rest Hl _ IH]; cbn [fold_left].
    + reflexivity.
    + rewrite handleLocationUpdate_stale; [exact IH | exact Hl].
Qed.

(** C4, the theorem at a remote-API result reaching the controller in its
    initial state (device provider active), and at a switch to the IP
    provider followed by two late device readings. *)
Lemma stale_updates_witness :
  handleLocationUpdate Scenario.googleFix initial = initial
  /\ deliverUpdates
       [NavigatorProvider.readingData (NavigatorProvider.mkProps 10 true) Scenario.fix1;
        NavigatorProvider.readingData (NavigatorProvider.mkProps 10 true) Scenario.fix2]
       (fst (handleProviderChange "ip" initial))
     = fst (handleProviderChange "ip" initial).
Proof.
  refine (stale_updates_are_discarded
            initial Scenario.googleFix "ip"
            [NavigatorProvider.readingData (NavigatorProvider.mkProps 10 true) Scenario.fix1;
             NavigatorProvider.readingData (NavigatorProvider.mkProps 10 true) Scenario.fix2]
            _ _).
  - cbn. discriminate.
  - repeat constructor; cbn; discriminate.
Defined.

(** C10. [handleError] looks at no provider id: whatever the state, and in
    particular right after a switch to any provider, an error handed to it
    replaces the failure, clears [loading] and raises the toast, all three
    determined by the error alone; the active provider stays what it was. *)
Theorem failures_are_not_filtered
        (t : Z) (e : AnyError) (active : string) (s : State) :
  (loading (handleError t e s) = false
   /\ error (handleError t e s)
      = Some (mkErrorInfo (fst (fst (project t e))) (snd (fst (project t e))))
   /\ toast (handleError t e s) = Some (mkToast (snd (project t e)) error_toast))
  /\ (loading (handleError t e (fst (handleProviderChange active s))) = false
      /\ error (handleError t e (fst (handleProviderChange active s)))
         = Some (mkErrorInfo (fst (fst (project t e))) (snd (fst (project t e))))
      /\ toast (handleError t e (fst (handleProviderChange active s)))
         = Some (mkToast (snd (project t e)) error_toast)
      /\ currentProviderRef (handleError t e (fst (handleProviderChange active s)))
         = active).
Proof.
  split.
  - destruct (handleError_fields t e s) as (Hl & He & Ht & _ & _). auto.
  - destruct (handleError_fields t e (fst (handleProviderChange active s)))
      as (Hl & He & Ht & _ & Hr).
    repeat split; trivial.
Qed.

End ControllerSettling.

(** ** Further properties of the providers and the controller *)

Section RemoteOutcomes.

Import GoogleProvider.

Variable r : Render.
Variable k : string.
Variable p : Payload.
Hypothesis captured : apiKey r = Some k.
Hypothesis nonempty : truthyStr k = true.
Hypothesis selected : methodsSelected r = true.
Hypothesis payload : buildPayload r = inr p.

(** X2. A non-success response that is not an invalid-key one: one request, no
    prompt, the stored key untouched, and the failure classified by status
    (429 rate limit, other 400 request error, anything else API error),
    carrying the status, reported through [onError] and thrown. *)
Theorem remote_failure_classified_by_status
        (fuel : nat) (st : Z) (d : GoogleBody)
        (rest : list (HttpOutcome GoogleBody)) (w : GWorld) :
  ok st = false ->
  invalidKeyResponse st d = false ->
  responses w = Responds st d :: rest ->
  getLocation (S fuel) r w
  = Some (Throw (ThrownLocation (statusError st d)),
          mkWorld (stored w) (apiKeyState w) (answers w) rest
                  (trace w ++ [Fetch (endpoint k) (Some p);
                               OnError (statusError st d)])).
Proof.
  intros Hok Hinv Hr.
  rewrite getLocation_step. unfold attempt, bind.
  rewrite (obtainKey_captured r k w captured nonempty), methods_guard, selected.
  cbn [negb]. unfold tryCatch, tryBlock. rewrite payload.
  unfold bind, fetch. rewrite Hr, Hok. cbn [negb].
  unfold onFailureStatus, statusError. rewrite Hinv.
  destruct (st =? 429); [| destruct (st =? 400)];
    cbn; unfold emit; cbn; repeat rewrite <- app_assoc; reflexivity.
Qed.

(** X3. A success response: the coordinates and the accuracy of the body are
    reported and returned as they are, tagged "google" and never live. *)
Theorem remote_success_is_verbatim
        (fuel : nat) (st : Z) (d : GoogleBody) (la lo : JsValue)
        (rest : list (HttpOutcome GoogleBody)) (w : GWorld) :
  ok st = true ->
  location d = Some (la, lo) ->
  responses w = Responds st d :: rest ->
  getLocation (S fuel) r w
  = Some (Normal (mkLocationData la lo (bodyAccuracy d) "google" false),
          mkWorld (stored w) (apiKeyState w) (answers w) rest
                  (trace w ++ [Fetch (endpoint k) (Some p);
                               OnLocationUpdate
                                 (mkLocationData la lo (bodyAccuracy d) "google" false)])).
Proof.
  intros Hok Hloc Hr.
  rewrite getLocation_step. unfold attempt, bind.
  rewrite (obtainKey_captured r k w captured nonempty), methods_guard, selected.
  cbn [negb]. unfold tryCatch, tryBlock. rewrite payload.
  unfold bind, fetch. rewrite Hr, Hok. cbn [negb]. rewrite Hloc.
  cbn; unfold emit; cbn; repeat rewrite <- app_assoc; reflexivity.
Qed.

End RemoteOutcomes.

Section MoreFacts.

Import GoogleProvider.

(** X2, the theorem at a 429 answered to the initial IP-only request. *)
Lemma remote_failure_witness :
  getLocation 1 (Scenario.ipOnly (Some "key"))
              (Scenario.world (Some "key") [] [Responds 429 Scenario.quotaBody])
  = Some (Throw (ThrownLocation (withStatus 429 rateLimitError)),
          mkWorld (Some "key") (Some "key") [] []
                  [Fetch (endpoint "key") (Some Scenario.ipPayload);
                   OnError (withStatus 429 rateLimitError)]).
Proof.
  exact (remote_failure_classified_by_status
           (Scenario.ipOnly (Some "key")) "key" Scenario.ipPayload
           eq_refl eq_refl eq_refl eq_refl
           0 429 Scenario.quotaBody []
           (Scenario.world (Some "key") [] [Responds 429 Scenario.quotaBody])
           eq_refl eq_refl eq_refl).
Defined.

(** X3, the theorem at the body [{location: {lat: 10, lng: 20}, accuracy: 30}]. *)
Lemma remote_success_witness :
  getLocation 1 (Scenario.ipOnly (Some "key"))
              (Scenario.world (Some "key") [] [Responds 200 Scenario.okBody])
  = Some (Normal Scenario.googleFix,
          mkWorld (Some "key") (Some "key") [] []
                  [Fetch (endpoint "key") (Some Scenario.ipPayload);
                   OnLocationUpdate Scenario.googleFix]).
Proof.
  exact (remote_success_is_verbatim
           (Scenario.ipOnly (Some "key")) "key" Scenario.ipPayload
           eq_refl eq_refl eq_refl eq_refl
           0 200 Scenario.okBody (VNum 10%float) (VNum 20%float) []
           (Scenario.world (Some "key") [] [Responds 200 Scenario.okBody])
           eq_refl eq_refl eq_refl).
Defined.

(** X1, the theorem at a run that takes three calls. *)
Lemma getLocation_returns_witness :
  exists out w',
    getLocation 3 (Scenario.ipOnly (Some "old")) Scenario.twiceRejected = Some (out, w').
Proof.
  exact (getLocation_returns 3 (Scenario.ipOnly (Some "old")) Scenario.twiceRejected
                             (le_n 3)).
Defined.

(** The request sent after a new key was typed in still carries the key the
    render captured, although the new one is the stored one by then. *)
Lemma retried_request_carries_the_captured_key :
  exists w',
    getLocation 2 (Scenario.ipOnly (Some "old"))
                (Scenario.world (Some "old") [Some "second"]
                   [Responds 403 Scenario.keyRejected; Responds 200 Scenario.okBody])
    = Some (Normal Scenario.googleFix, w')
    /\ stored w' = Some "second"
    /\ fetches (trace w')
       = [Fetch (endpoint "old") (Some Scenario.ipPayload);
          Fetch (endpoint "old") (Some Scenario.ipPayload)].
Proof. eexists. split; [vm_compute; reflexivity |]. split; reflexivity. Qed.

End MoreFacts.

Section IpOutcomes.

Import IpProvider.

(** X4. A non-success status of the lookup service: rate limit on 429, service
    error otherwise, carrying the status, reported through [onError] and
    thrown. *)
Theorem ip_failure_classified_by_status
        (st : Z) (data : IpBody) (rest : list (HttpOutcome IpBody)) (w : IWorld) :
  ok st = false ->
  responses w = Responds st data :: rest ->
  getLocation w
  = (Throw (ThrownLocation (ipStatusError st)),
     mkWorld (stored w) (apiKeyState w) (answers w) rest
             (trace w ++ [Fetch "https://ipapi.co/json/" None;
                          OnError (ipStatusError st)])).
Proof.
  intros Hok Hr.
  unfold getLocation, tryCatch, tryBlock, bind, fetch, ipStatusError.
  rewrite Hr, Hok. cbn [negb].
  destruct (st =? 429); cbn; unfold emit; cbn;
    repeat rewrite <- app_assoc; reflexivity.
Qed.

(** X4, the theorem at status 503. *)
Lemma ip_failure_witness :
  getLocation (mkWorld None None [] [Responds 503 Scenario.equator] [])
  = (Throw (ThrownLocation (withStatus 503 serviceError)),
     mkWorld None None [] []
             [Fetch "https://ipapi.co/json/" None; OnError (withStatus 503 serviceError)]).
Proof.
  exact (ip_failure_classified_by_status
           503 Scenario.equator [] (mkWorld None None [] [Responds 503 Scenario.equator] [])
           eq_refl eq_refl).
Defined.

(** X5. A fetch that rejects with a TypeError mentioning "fetch" is reported as
    a network error keeping the message; any other rejection as the unknown
    error. *)
Theorem ip_rejection_is_reclassified
        (name msg : string) (rest : list (HttpOutcome IpBody)) (w : IWorld) :
  responses w = FetchRejects name msg :: rest ->
  fst (getLocation w)
  = Throw (ThrownLocation
             (if String.eqb name "TypeError" && includes "fetch" msg
              then networkError msg else unknownError msg)).
Proof.
  intros Hr.
  unfold getLocation, tryCatch, tryBlock, bind, fetch. rewrite Hr.
  unfold catchBlock, bind, onError, throw. reflexivity.
Qed.

(** X5, the theorem at the rejection of an unreachable host. *)
Lemma ip_rejection_witness :
  fst (getLocation (mkWorld None None [] [FetchRejects "TypeError" "Failed to fetch"] []))
  = Throw (ThrownLocation (networkError "Failed to fetch")).
Proof.
  exact (ip_rejection_is_reclassified
           "TypeError" "Failed to fetch" []
           (mkWorld None None [] [FetchRejects "TypeError" "Failed to fetch"] [])
           eq_refl).
Defined.

End IpOutcomes.

Section DeviceOutcomes.

Import NavigatorProvider.

(** Without geolocation in the browser [getLocation] rejects at once with
    the not-supported failure and asks nothing of the device. *)
Theorem unsupported_device_rejects_at_once (p : Props) (d : Device) :
  supported d = false ->
  getLocation p d = (mkAcquisition NoRequest (Rejected notSupportedError) [], d).
Proof.
  intros Hsup. unfold getLocation. rewrite Hsup. reflexivity.
Qed.

(** The theorem above at a browser without geolocation. *)
Lemma unsupported_device_witness :
  getLocation (mkProps 10 true) (mkDevice false None 1 [] [])
  = (mkAcquisition NoRequest (Rejected notSupportedError) [],
     mkDevice false None 1 [] []).
Proof.
  exact (unsupported_device_rejects_at_once
           (mkProps 10 true) (mkDevice false None 1 [] []) eq_refl).
Defined.

(** With live tracking off [getLocation] asks for a single reading with high
    accuracy, the timeout in milliseconds and no cached position; it
    registers no watch and leaves [watchIdRef] alone. A timeout reported by
    the platform rejects the promise with a text naming the configured
    seconds. *)
Theorem single_reading_request (p : Props) (d : Device) (msg : string) :
  liveTracking p = false ->
  supported d = true ->
  getLocation p d
  = (mkAcquisition
       (GetCurrentPosition (mkPositionOptions true (gpsTimeout p * 1000) 0))
       Pending [],
     d)
  /\ promise (deliver p (fst (getLocation p d)) (Failure (mkPositionError TIMEOUT msg)))
     = Rejected (newLocationError msg "Location request timeout"
                                  (timeoutDetails (gpsTimeout p))).
Proof.
  intros Hlive Hsup. unfold getLocation. rewrite Hsup, Hlive. cbn [negb].
  split; reflexivity.
Qed.

(** The theorem above at a timeout of 10 seconds. *)
Lemma single_reading_witness :
  getLocation (mkProps 10 false) Scenario.idle
  = (mkAcquisition (GetCurrentPosition (mkPositionOptions true 10000 0)) Pending [],
     Scenario.idle).
Proof.
  exact (proj1 (single_reading_request (mkProps 10 false) Scenario.idle "Timeout expired"
                                       eq_refl eq_refl)).
Defined.

End DeviceOutcomes.

Section ControllerOutcomes.

Import App.

(** Switching to a provider, the active one included, clears every provider,
    resets result and failure, sets [loading], makes that provider the active
    one and starts one acquisition on it. *)
Theorem switching_resets_and_restarts (id : string) (s : State) :
  isProvider id = true ->
  snd (handleProviderChange id s)
  = [Cleanup "navigator"; Cleanup "google"; Cleanup "ip"; GetLocation id]
  /\ currentProviderRef (fst (handleProviderChange id s)) = id
  /\ currentProvider (fst (handleProviderChange id s)) = id
  /\ loading (fst (handleProviderChange id s)) = true
  /\ error (fst (handleProviderChange id s)) = None
  /\ location (fst (handleProviderChange id s)) = None.
Proof.
  intros Hid. unfold handleProviderChange, acquire. rewrite Hid.
  repeat split.
Qed.

(** The theorem above at a switch to the remote provider while it is active. *)
Lemma switching_witness :
  snd (handleProviderChange "google" Scenario.located)
  = [Cleanup "navigator"; Cleanup "google"; Cleanup "ip"; GetLocation "google"]
  /\ currentProviderRef (fst (handleProviderChange "google" Scenario.located)) = "google"
  /\ currentProvider (fst (handleProviderChange "google" Scenario.located)) = "google"
  /\ loading (fst (handleProviderChange "google" Scenario.located)) = true
  /\ error (fst (handleProviderChange "google" Scenario.located)) = None
  /\ location (fst (handleProviderChange "google" Scenario.located)) = None.
Proof.
  exact (switching_resets_and_restarts "google" Scenario.located eq_refl).
Defined.

(** A change of the remote provider's options starts an acquisition exactly
    when the remote provider is the active one and the controller is not
    loading; it never touches the state. *)
Theorem option_change_refreshes_only_the_active_remote_provider (s : State) :
  googleOptionsEffect s
  = (if String.eqb (currentProviderRef s) "google" && negb (loading s)
     then [GetLocation "google"] else []).
Proof.
  unfold googleOptionsEffect, acquire.
  destruct (String.eqb_spec (currentProviderRef s) "google") as [Heq | Hne];
    cbn [andb]; [| reflexivity].
  rewrite Heq. reflexivity.
Qed.

End ControllerOutcomes.

Section EndToEnd.

Import App.

(** X10. Selecting the IP provider and letting its lookup answer 200 with
    two truthy coordinates leaves the controller not loading, without failure,
    and holding the result built from the body with accuracy 5000. *)
Theorem ip_selection_end_to_end
        (s : State) (t : Z) (data : IpProvider.IpBody) :
  truthy (IpProvider.latitude data) && truthy (IpProvider.longitude data) = true ->
  snd (handleProviderChange "ip" s)
  = [Cleanup "navigator"; Cleanup "google"; Cleanup "ip"; GetLocation "ip"]
  /\ settle t
            (trace (snd (IpProvider.getLocation (Scenario.ipWorld data))))
            (fst (IpProvider.getLocation (Scenario.ipWorld data)))
            (fst (handleProviderChange "ip" s))
     = mkState "ip" "ip" false None
               (liveTracking s) (gpsTimeout s) (useWifi s) (useCellular s) (useIp s)
               (networkInfo s)
               (Some (mkLocationData (IpProvider.latitude data) (IpProvider.longitude data)
                                     (VNum 5000%float) "ip" false))
               (toast s) (Some (VNum 5000%float)).
Proof.
  intros Htruthy. split; [reflexivity |].
  apply andb_true_iff in Htruthy. destruct Htruthy as [Hla Hlo].
  unfold IpProvider.getLocation, tryCatch, IpProvider.tryBlock, bind, fetch.
  cbn [Scenario.ipWorld responses].
  destruct (ok 200) eqn:H200; [| discriminate H200].
  cbn [negb]. rewrite Hla, Hlo. cbn.
  reflexivity.
Qed.

(** X10, the theorem at the body [{latitude: 10, longitude: 20}] from the
    initial state. *)
Lemma ip_selection_witness :
  settle 10
         (trace (snd (IpProvider.getLocation
                        (Scenario.ipWorld
                           (IpProvider.mkIpBody (VNum 10%float) (VNum 20%float))))))
         (fst (IpProvider.getLocation
                 (Scenario.ipWorld (IpProvider.mkIpBody (VNum 10%float) (VNum 20%float)))))
         (fst (handleProviderChange "ip" initial))
  = mkState "ip" "ip" false None true 10 false false true
            (GoogleProvider.mkNetworkInfo "" "" "")
            (Some (mkLocationData (VNum 10%float) (VNum 20%float)
                                  (VNum 5000%float) "ip" false))
            None (Some (VNum 5000%float)).
Proof.
  exact (proj2 (ip_selection_end_to_end
                  initial 10
                  (IpProvider.mkIpBody (VNum 10%float) (VNum 20%float))
                  eq_refl)).
Defined.

End EndToEnd.

(** ** Further properties: what the remote provider sends and throws *)

Section RemoteTraces.

Import GoogleProvider.

(** The three ways [obtainKey] ends: with the captured key and nothing done;
    with a key typed into the prompt, stored at once; or with the prompt left
    without a key and "No API key provided". *)
Lemma obtainKey_cases (r : Render) (w w1 : GWorld) (c : Completion string) :
  obtainKey r w = (c, w1) ->
  (exists k, apiKey r = Some k /\ truthyStr k = true /\ c = Normal k /\ w1 = w)
  \/ (truthyKey (apiKey r) = false
      /\ exists k rest,
          answers w = Some k :: rest /\ truthyStr k = true /\ c = Normal k
          /\ w1 = mkWorld (Some k) (Some k) rest (responses w)
                          (trace w ++ [Prompt enterKeyText (Some k);
                                       SetApiKey (Some k); StorageSet k]))
  \/ (truthyKey (apiKey r) = false
      /\ declines (answers w) = true
      /\ c = Throw (ThrownLocation noApiKeyError)
      /\ w1 = mkWorld (stored w) (apiKeyState w) (tl (answers w)) (responses w)
                      (trace w ++ [Prompt enterKeyText (hd None (answers w))])).
Proof.
  unfold obtainKey. intros H.
  assert (Hprompt :
            promptForKey w = (c, w1) ->
            (exists k rest,
                answers w = Some k :: rest /\ truthyStr k = true /\ c = Normal k
                /\ w1 = mkWorld (Some k) (Some k) rest (responses w)
                                (trace w ++ [Prompt enterKeyText (Some k);
                                             SetApiKey (Some k); StorageSet k]))
            \/ (declines (answers w) = true
                /\ c = Throw (ThrownLocation noApiKeyError)
                /\ w1 = mkWorld (stored w) (apiKeyState w) (tl (answers w)) (responses w)
                                (trace w ++ [Prompt enterKeyText (hd None (answers w))]))).
  { unfold promptForKey, bind, prompt, setApiKey, setStoredApiKey, ret, throw, emit.
    destruct (answers w) as [| [a |] more] eqn:Ha; cbn.
    - intros E. injection E as <- <-. right. repeat split.
    - destruct (truthyStr a) eqn:Hta; cbn; intros E; injection E as <- <-.
      + left. exists a, more. repeat split; trivial.
        repeat rewrite <- app_assoc. reflexivity.
      + right. cbn. rewrite ?Hta. repeat split.
    - intros E. injection E as <- <-. right. repeat split. }
  destruct (apiKey r) as [k |] eqn:Hk.
  - destruct (truthyStr k) eqn:Htk.
    + left. exists k. injection H as <- <-. repeat split; trivial.
    + right. destruct (Hprompt H) as [Hcase | Hcase].
      * left. split; [exact Htk | exact Hcase].
      * right. split; [exact Htk | exact Hcase].
  - right. destruct (Hprompt H) as [Hcase | Hcase].
    + left. split; [reflexivity | exact Hcase].
    + right. split; [reflexivity | exact Hcase].
Qed.

Lemma orElse_truthy (a : option string) (b : string) :
  truthyStr b = true -> truthyStr (orElse a b) = true.
Proof.
  intros Hb. unfold orElse. destruct a as [s |]; [| exact Hb].
  destruct (truthyStr s) eqn:Hs; [exact Hs | exact Hb].
Qed.

Lemma buildPayload_error_presentable (r : Render) (e : LocationError) :
  buildPayload r = inl e -> presentable e = true.
Proof.
  unfold buildPayload, addCellular, addWifi. intros H.
  repeat match type of H with
         | context [if ?x then _ else _] => destruct x
         end;
    try discriminate H; injection H as <-; reflexivity.
Qed.

(** What one run of the body does, whatever the render and the world: it
    only adds to the trace; every request it adds is well formed; the key
    state and the stored key stay equal if they were; and what it throws is a
    presentable [LocationError], reported through [onError] as its last
    effect unless it is one of the two failures raised before the [try]. *)
Lemma attempt_summary (r : Render) (w w1 : GWorld) (c : Completion Step) :
  attempt r w = (c, w1) ->
  exists added,
    trace w1 = (trace w ++ added)%list
    /\ Forall (wellFormedRequest r) added
    /\ (apiKeyState w = stored w -> apiKeyState w1 = stored w1)
    /\ (forall t, c = Throw t ->
        exists e,
          t = ThrownLocation e
          /\ presentable e = true
          /\ ((e = noApiKeyError \/ e = noMethodsError) /\ fetches added = []
              \/ exists before, added = (before ++ [OnError e])%list)).
Proof.
  unfold attempt, bind. intros H.
  destruct (obtainKey r w) as [ck w0] eqn:Hkey.
  assert (Hpre : exists pre,
             trace w0 = (trace w ++ pre)%list
             /\ Forall (wellFormedRequest r) pre
             /\ fetches pre = []
             /\ (apiKeyState w = stored w -> apiKeyState w0 = stored w0)
             /\ ((exists k, ck = Normal k /\ truthyStr k = true)
                 \/ ck = Throw (ThrownLocation noApiKeyError))).
  { destruct (obtainKey_cases r w w0 ck Hkey)
      as [(k & _ & Htk & -> & ->) | [(_ & k & rest & _ & Htk & -> & ->)
                                    | (_ & _ & -> & ->)]].
    - exists []. rewrite app_nil_r. repeat split; eauto.
    - eexists. cbn [trace stored apiKeyState]. split; [reflexivity |].
      repeat split; eauto. repeat constructor.
    - eexists. cbn [trace stored apiKeyState]. split; [reflexivity |].
      repeat split; auto. repeat constructor. }
  destruct Hpre as (pre & Hpre & Hwf & Hnof & Hsync & Hck).
  destruct Hck as [(k & -> & Htk) | ->].
  2:{ injection H as <- <-. exists pre. repeat split; trivial.
      intros t E. injection E as <-. exists noApiKeyError.
      repeat split. left. split; [left; reflexivity | exact Hnof]. }
  rewrite methods_guard in H.
  destruct (methodsSelected r) eqn:Hsel; cbn [negb] in H.
  2:{ unfold throw in H. injection H as <- <-. exists pre. repeat split; trivial.
      intros t E. injection E as <-. exists noMethodsError.
      repeat split. left. split; [right; reflexivity | exact Hnof]. }
  unfold tryCatch, tryBlock in H.
  destruct (buildPayload r) as [e | p] eqn:Hp.
  { unfold throw, catchBlock, bind, onError, emit in H. cbn in H.
    injection H as <- <-. exists (pre ++ [OnError e])%list.
    cbn [trace stored apiKeyState]. rewrite Hpre, <- app_assoc.
    repeat split; trivial.
    - apply Forall_app. split; [exact Hwf | repeat constructor].
    - intros t E. injection E as <-. exists e. repeat split.
      + exact (buildPayload_error_presentable r e Hp).
      + right. exists pre. reflexivity. }
  assert (Hreq : wellFormedRequest r (Fetch (endpoint k) (Some p))).
  { exists k, p. repeat split; trivial. }
  unfold bind, fetch in H.
  destruct (responses w0) as [| [n m | st data] rest] eqn:Hr.
  - (* nothing answers: the fetch rejects *)
    unfold catchBlock, bind, onError, throw, emit in H. cbn in H.
    injection H as <- <-.
    eexists. cbn [trace stored apiKeyState]. rewrite Hpre.
    split; [repeat rewrite <- app_assoc; reflexivity |].
    split; [apply Forall_app; split; [exact Hwf | repeat constructor; exact Hreq] |].
    split; [exact Hsync |].
    intros t E. injection E as <-. eexists. split; [reflexivity |].
    split; [reflexivity |]. right.
    exists (pre ++ [Fetch (endpoint k) (Some p)])%list.
    repeat rewrite <- app_assoc. reflexivity.
  - unfold catchBlock, bind, onError, throw, emit in H. cbn in H.
    injection H as <- <-.
    eexists. cbn [trace stored apiKeyState]. rewrite Hpre.
    split; [repeat rewrite <- app_assoc; reflexivity |].
    split; [apply Forall_app; split; [exact Hwf | repeat constructor; exact Hreq] |].
    split; [exact Hsync |].
    intros t E. injection E as <-. eexists. split; [reflexivity |].
    split; [unfold presentable, unexpectedError; cbn;
            reflexivity |].
    right. exists (pre ++ [Fetch (endpoint k) (Some p)])%list.
    repeat rewrite <- app_assoc. reflexivity.
  - destruct (negb (ok st)) eqn:Hok.
    + unfold onFailureStatus in H.
      destruct (invalidKeyResponse st data) eqn:Hinv.
      * unfold bind, setApiKey, removeStoredApiKey, prompt, setStoredApiKey,
          ret, throw, catchBlock, onError, emit in H.
        cbn in H.
        destruct (answers w0) as [| [a |] more] eqn:Ha; cbn in H;
          [| destruct (truthyStr a) eqn:Hta; cbn in H |];
          injection H as <- <-;
          eexists; cbn [trace stored apiKeyState]; rewrite Hpre;
          (split; [repeat rewrite <- app_assoc; reflexivity |]);
          (split; [apply Forall_app; split;
                   [exact Hwf | repeat constructor; exact Hreq] |]);
          (split; [reflexivity |]);
          intros t E; try discriminate E; injection E as <-;
          eexists; (split; [reflexivity |]); (split; [reflexivity |]); right;
          eexists; repeat rewrite app_assoc; reflexivity.
      * assert (Hthrown :
                  exists e, presentable e = true
                            /\ (c, w1)
                               = (Throw (ThrownLocation e),
                                  mkWorld (stored w0) (apiKeyState w0) (answers w0) rest
                                          (trace w0 ++ [Fetch (endpoint k) (Some p);
                                                        OnError e]))).
        { destruct (st =? 429); [| destruct (st =? 400)];
            unfold throw, catchBlock, bind, onError, emit in H; cbn in H;
            rewrite <- H; eexists;
            (split; [| repeat rewrite <- app_assoc; reflexivity]).
          - reflexivity.
          - unfold presentable, badRequestError, withStatus, newLocationError. cbn.
            reflexivity.
          - unfold presentable, apiError, withStatus, newLocationError. cbn.
            reflexivity. }
        destruct Hthrown as (e & Hpres & E). injection E as -> ->.
        eexists. cbn [trace stored apiKeyState]. rewrite Hpre.
        split; [repeat rewrite <- app_assoc; reflexivity |].
        split; [apply Forall_app; split;
                [exact Hwf | repeat constructor; exact Hreq] |].
        split; [exact Hsync |].
        intros t E. injection E as <-. exists e. repeat split; trivial.
        right. exists (pre ++ [Fetch (endpoint k) (Some p)])%list.
        repeat rewrite <- app_assoc. reflexivity.
    + destruct (location data) as [[la lo] |].
      * unfold bind, onLocationUpdate, ret, emit in H. cbn in H.
        injection H as <- <-.
        eexists. cbn [trace stored apiKeyState]. rewrite Hpre.
        split; [repeat rewrite <- app_assoc; reflexivity |].
        split; [apply Forall_app; split;
                [exact Hwf | repeat constructor; exact Hreq] |].
        split; [exact Hsync |].
        intros t E. discriminate E.
      * unfold catchBlock, bind, onError, throw, emit in H. cbn in H.
        injection H as <- <-.
        eexists. cbn [trace stored apiKeyState]. rewrite Hpre.
        split; [repeat rewrite <- app_assoc; reflexivity |].
        split; [apply Forall_app; split;
                [exact Hwf | repeat constructor; exact Hreq] |].
        split; [exact Hsync |].
        intros t E. injection E as <-. eexists. split; [reflexivity |].
        split; [reflexivity |]. right.
        exists (pre ++ [Fetch (endpoint k) (Some p)])%list.
        repeat rewrite <- app_assoc. reflexivity.
Qed.



(** X12. The key state of the component and the stored key move together:
    if they are equal when [getLocation] starts they are equal when it
    returns, whatever happened in between. *)
Theorem key_state_follows_storage (fuel : nat) :
  forall (r : Render) (w w' : GWorld) (out : Completion LocationData),
    getLocation fuel r w = Some (out, w') ->
    apiKeyState w = stored w ->
    apiKeyState w' = stored w'.
Proof.
  induction fuel as [| fuel IH]; intros r w w' out H Hsync; [discriminate H |].
  rewrite getLocation_step in H.
  destruct (attempt r w) as [[[ld |] | t] w1] eqn:Hrun;
    destruct (attempt_summary r w w1 _ Hrun) as (_ & _ & _ & Hs & _).
  - injection H as <- <-. auto.
  - exact (IH r w1 w' out H (Hs Hsync)).
  - injection H as <- <-. auto.
Qed.

(** X12, the theorem at a rejected key not replaced: both end up empty. *)
Lemma key_state_witness :
  apiKeyState (worldAfter 1 (Scenario.ipOnly (Some "old"))
                 (Scenario.world (Some "old") [] [Responds 403 Scenario.keyRejected]))
  = stored (worldAfter 1 (Scenario.ipOnly (Some "old"))
              (Scenario.world (Some "old") [] [Responds 403 Scenario.keyRejected])).
Proof.
  refine (key_state_follows_storage
            1 (Scenario.ipOnly (Some "old"))
            (Scenario.world (Some "old") [] [Responds 403 Scenario.keyRejected])
            (worldAfter 1 (Scenario.ipOnly (Some "old"))
               (Scenario.world (Some "old") [] [Responds 403 Scenario.keyRejected]))
            (Throw (ThrownLocation (withStatus 403 invalidApiKeyError)))
            _ _).
  - vm_compute. reflexivity.
  - reflexivity.
Defined.

(** X13. Whatever [getLocation] throws is a [LocationError] with both user
    texts non-empty, so the controller shows the provider's own summary and
    detail; and unless it is one of the two failures raised before the [try]
    block ("No API key provided", "No methods selected"), it was handed to
    [onError] as the last thing before being thrown. *)
Theorem remote_failures_are_presentable (fuel : nat) :
  forall (r : Render) (w w' : GWorld) (t : Thrown) (captured : Z),
    getLocation fuel r w = Some (Throw t, w') ->
    exists e,
      t = ThrownLocation e
      /\ App.project captured (App.ofThrown t)
         = (userMessage e, userDetails e, userMessage e)
      /\ (e = noApiKeyError \/ e = noMethodsError
          \/ exists before, trace w' = (before ++ [OnError e])%list).
Proof.
  induction fuel as [| fuel IH]; intros r w w' t captured H; [discriminate H |].
  rewrite getLocation_step in H.
  destruct (attempt r w) as [[[ld |] | t1] w1] eqn:Hrun.
  - discriminate H.
  - exact (IH r w1 w' t captured H).
  - injection H as <- <-.
    destruct (attempt_summary r w w1 _ Hrun) as (added & Htr & _ & _ & Hthrow).
    destruct (Hthrow t1 eq_refl) as (e & -> & Hpres & Hrep).
    exists e. split; [reflexivity |]. split.
    + unfold presentable in Hpres. cbn. rewrite Hpres. reflexivity.
    + destruct Hrep as [[[-> | ->] _] | (before & ->)]; auto.
      right. right. exists (trace w ++ before)%list.
      rewrite Htr, app_assoc. reflexivity.
Qed.

(** X13, the theorem at a 429. *)
Lemma remote_failures_witness :
  exists e,
    ThrownLocation (withStatus 429 rateLimitError) = ThrownLocation e
    /\ App.project 10 (App.ofThrown (ThrownLocation (withStatus 429 rateLimitError)))
       = (userMessage e, userDetails e, userMessage e)
    /\ (e = noApiKeyError \/ e = noMethodsError
        \/ exists before,
            trace (worldAfter 1 (Scenario.ipOnly (Some "key"))
                     (Scenario.world (Some "key") [] [Responds 429 Scenario.quotaBody]))
            = (before ++ [OnError e])%list).
Proof.
  refine (remote_failures_are_presentable
            1 (Scenario.ipOnly (Some "key"))
            (Scenario.world (Some "key") [] [Responds 429 Scenario.quotaBody])
            (worldAfter 1 (Scenario.ipOnly (Some "key"))
               (Scenario.world (Some "key") [] [Responds 429 Scenario.quotaBody]))
            (ThrownLocation (withStatus 429 rateLimitError)) 10 _).
  vm_compute. reflexivity.
Defined.

(** [parseInt] rounds: an integer too long for a binary64 is sent as its
    neighbour. *)
Lemma parseInt_rounds :
  parseInt "310" = 310%float
  /\ parseInt "9007199254740993" = 9007199254740992%float.
Proof. split; reflexivity. Qed.



End RemoteTraces.

Section GoogleCodes.

Import GoogleProvider.

(** With its key, a method selected and a payload that builds, a run of the
    body issues its request before anything else. *)
Lemma attempt_requests (r : Render) (key : string) (p : Payload) (w w1 : GWorld) :
  obtainKey r w = (Normal key, w1) ->
  methodsSelected r = true ->
  buildPayload r = inr p ->
  exists c w2 later,
    attempt r w = (c, w2)
    /\ trace w2 = (trace w1 ++ Fetch (endpoint key) (Some p) :: later)%list.
Proof.
  intros Hkey Hsel Hp.
  unfold attempt, bind. rewrite Hkey, methods_guard, Hsel. cbn [negb].
  unfold tryCatch, tryBlock. rewrite Hp. unfold bind, fetch.
  destruct (responses w1) as [| [n m | st data] rest].
  - unfold catchBlock, bind, onError, throw, emit. cbn.
    eexists. eexists. eexists. split; [reflexivity |].
    cbn [trace]. rewrite <- app_assoc. reflexivity.
  - unfold catchBlock, bind, onError, throw, emit. cbn.
    eexists. eexists. eexists. split; [reflexivity |].
    cbn [trace]. rewrite <- app_assoc. reflexivity.
  - destruct (negb (ok st)).
    + unfold onFailureStatus.
      destruct (invalidKeyResponse st data).
      * unfold bind, setApiKey, removeStoredApiKey, prompt, setStoredApiKey,
          ret, throw, catchBlock, onError, emit.
        cbn.
        destruct (answers w1) as [| [a |] more]; cbn;
          [| destruct (truthyStr a); cbn |];
          (eexists; eexists; eexists; split; [reflexivity |]);
          cbn [trace]; repeat rewrite <- app_assoc; reflexivity.
      * destruct (st =? 429); [| destruct (st =? 400)];
          unfold throw, catchBlock, bind, onError, emit; cbn;
          (eexists; eexists; eexists; split; [reflexivity |]);
          cbn [trace]; repeat rewrite <- app_assoc; reflexivity.
    + destruct (location data) as [[la lo] |].
      * unfold bind, onLocationUpdate, ret, emit. cbn.
        eexists. eexists. eexists. split; [reflexivity |].
        cbn [trace]. rewrite <- app_assoc. reflexivity.
      * unfold catchBlock, bind, onError, throw, emit. cbn.
        eexists. eexists. eexists. split; [reflexivity |].
        cbn [trace]. rewrite <- app_assoc. reflexivity.
Qed.

(** With more fuel than answers left, [getLocation] returns, and what it
    leaves is the trace it found with more at its end. *)
Lemma getLocation_extends (fuel : nat) :
  forall (r : Render) (w : GWorld),
    (List.length (answers w) < fuel)%nat ->
    exists out w' later,
      getLocation fuel r w = Some (out, w') /\ trace w' = (trace w ++ later)%list.
Proof.
  induction fuel as [| fuel IH]; intros r w Hlt; [lia |].
  rewrite getLocation_step.
  destruct (attempt r w) as [[[ld |] | t] w1] eqn:Hrun;
    destruct (attempt_summary r w w1 _ Hrun) as (added & Htr & _).
  - eauto.
  - apply attempt_again_consumes in Hrun.
    destruct (IH r w1 ltac:(lia)) as (out & w' & later & Hgo & Htr').
    exists out, w', (added ++ later)%list.
    split; [exact Hgo |]. rewrite Htr', Htr, app_assoc. reflexivity.
  - eauto.
Qed.

(** C6, counterexample. Cellular is selected, the country code is "abc" and
    the network code is empty: no validation takes place, the request is
    issued without any cellular field and the acquisition succeeds. *)
Lemma letters_pass_when_a_code_is_empty :
  testDigits "abc" = false
  /\ getLocation 1 Scenario.cellularLetters
                 (Scenario.world (Some "key") [] [Responds 200 Scenario.okBody])
     = Some (Normal Scenario.googleFix,
             mkWorld (Some "key") (Some "key") [] []
                     [Fetch (endpoint "key")
                            (Some (mkPayload false None None None None None None));
                      OnLocationUpdate Scenario.googleFix]).
Proof. split; reflexivity. Qed.

(** C6 (as the code has it). Cellular selected and a key at hand (captured
    or typed into the prompt). With both codes filled in, a country code that
    is not all digits fails with "Invalid MCC", otherwise a network code that
    is not all digits fails with "Invalid MNC"; the failure goes to [onError]
    and no request is issued. With either code left empty nothing is
    validated, whatever the other code holds: the payload builds without any
    cellular field and the request carrying it is issued. *)
Theorem filled_codes_are_validated_before_the_request
        (fuel : nat) (r : Render) (w w1 : GWorld) (key : string) :
  obtainKey r w = (Normal key, w1) ->
  useCellular r = true ->
  (truthyStr (mcc (networkInfo r)) = true ->
   truthyStr (mnc (networkInfo r)) = true ->
   testDigits (mcc (networkInfo r)) && testDigits (mnc (networkInfo r)) = false ->
   getLocation (S fuel) r w
   = Some (Throw (ThrownLocation (codeError r)), emit (OnError (codeError r)) w1)
   /\ fetches (trace (emit (OnError (codeError r)) w1)) = fetches (trace w)
   /\ responses (emit (OnError (codeError r)) w1) = responses w)
  /\ (truthyStr (mcc (networkInfo r)) && truthyStr (mnc (networkInfo r)) = false ->
      buildPayload r = inr (withoutCellular r)
      /\ ((List.length (answers w) <= fuel)%nat ->
          exists out w' later,
            getLocation (S fuel) r w = Some (out, w')
            /\ trace w'
               = (trace w1
                  ++ Fetch (endpoint key) (Some (withoutCellular r)) :: later)%list)).
Proof.
  intros Hkey Hcell.
  assert (Hsel : methodsSelected r = true).
  { unfold methodsSelected. rewrite Hcell, orb_true_r. reflexivity. }
  split.
  - intros Hmcc Hmnc Hbad.
    destruct (obtainKey_answers r w w1 _ Hkey) as (_ & Hresp & Hfetch).
    split; [| split; [| exact Hresp]].
    + rewrite getLocation_step. unfold attempt, bind. rewrite Hkey.
      rewrite methods_guard, Hsel. cbn [negb].
      unfold tryCatch, tryBlock, buildPayload, addCellular, codeError.
      rewrite Hcell, Hmcc, Hmnc. cbn [andb].
      destruct (testDigits (mcc (networkInfo r))); cbn [negb].
      * cbn [andb] in Hbad. rewrite Hbad. cbn [negb]. reflexivity.
      * reflexivity.
    + cbn [emit trace]. rewrite fetches_app, Hfetch. cbn. apply app_nil_r.
  - intros Hempty.
    assert (Hp : buildPayload r = inr (withoutCellular r)).
    { unfold buildPayload, addCellular, withoutCellular.
      rewrite Hcell. cbn [andb]. rewrite Hempty.
      destruct (useWifi r) eqn:Hw.
      - rewrite (addWifi_attaches r _ Hw). reflexivity.
      - unfold addWifi. rewrite Hw. reflexivity. }
    split; [exact Hp |].
    intros Hfuel.
    destruct (attempt_requests r key _ w w1 Hkey Hsel Hp)
      as (c & w2 & later & Hrun & Htr).
    rewrite getLocation_step, Hrun.
    destruct c as [[ld |] | t].
    + exists (Normal ld), w2, later. split; [reflexivity | exact Htr].
    + apply attempt_again_consumes in Hrun.
      destruct (getLocation_extends fuel r w2 ltac:(lia))
        as (out & w' & more & Hgo & Htr').
      exists out, w', (later ++ more)%list.
      split; [exact Hgo |].
      rewrite Htr', Htr, <- app_assoc. reflexivity.
    + exists (Throw t), w2, later. split; [reflexivity | exact Htr].
Qed.

(** C6, the theorem at country code "310" and network code "4x", and at
    country code "abc" with the network code left empty. *)
Lemma invalid_mnc_witness :
  (getLocation 1 Scenario.cellularBadMnc
               (Scenario.world (Some "key") [] [Responds 200 Scenario.okBody])
   = Some (Throw (ThrownLocation invalidMncError),
           mkWorld (Some "key") (Some "key") [] [Responds 200 Scenario.okBody]
                   [OnError invalidMncError])
   /\ fetches (trace (emit (OnError invalidMncError)
                           (Scenario.world (Some "key") [] [Responds 200 Scenario.okBody])))
      = []
   /\ responses (emit (OnError invalidMncError)
                      (Scenario.world (Some "key") [] [Responds 200 Scenario.okBody]))
      = [Responds 200 Scenario.okBody])
  /\ buildPayload Scenario.cellularLetters
     = inr (mkPayload false None None None None None None)
  /\ exists out w' later,
      getLocation 1 Scenario.cellularLetters
                  (Scenario.world (Some "key") [] [Responds 200 Scenario.okBody])
      = Some (out, w')
      /\ trace w'
         = Fetch (endpoint "key") (Some (mkPayload false None None None None None None))
           :: later.
Proof.
  split.
  - exact (proj1 (filled_codes_are_validated_before_the_request
                    0 Scenario.cellularBadMnc
                    (Scenario.world (Some "key") [] [Responds 200 Scenario.okBody])
                    (Scenario.world (Some "key") [] [Responds 200 Scenario.okBody])
                    "key" eq_refl eq_refl)
                 eq_refl eq_refl eq_refl).
  - destruct (proj2 (filled_codes_are_validated_before_the_request
                       0 Scenario.cellularLetters
                       (Scenario.world (Some "key") [] [Responds 200 Scenario.okBody])
                       (Scenario.world (Some "key") [] [Responds 200 Scenario.okBody])
                       "key" eq_refl eq_refl)
                    eq_refl) as [Hp Hrun].
    split; [exact Hp |]. exact (Hrun (le_n 0)).
Defined.

End GoogleCodes.


(** ** Further properties: the Wi-Fi scan service *)

Section WifiScan.

Import WifiService.

Lemma hexValue_range (c : ascii) (v : Z) : hexValue c = Some v -> 0 <= v <= 15.
Proof.
  unfold hexValue. cbv zeta.
  destruct ((48 <=? Z.of_nat (nat_of_ascii c)) && (Z.of_nat (nat_of_ascii c) <=? 57)) eqn:H1;
    [| destruct ((65 <=? Z.of_nat (nat_of_ascii c)) && (Z.of_nat (nat_of_ascii c) <=? 70)) eqn:H2;
       [| destruct ((97 <=? Z.of_nat (nat_of_ascii c))
                    && (Z.of_nat (nat_of_ascii c) <=? 102)) eqn:H3]];
    intros E; try discriminate E; injection E as <-;
    match goal with
    | H : _ && _ = true |- _ =>
        apply andb_true_iff in H; destruct H as [Hl Hu];
        apply Z.leb_le in Hl; apply Z.leb_le in Hu; lia
    end.
Qed.

Lemma bit1_of_low_nibble (hi lo : Z) :
  0 <= lo <= 15 -> Z.testbit (16 * hi + lo) 1 = Z.testbit lo 1.
Proof.
  intros Hlo.
  rewrite !Z.testbit_odd, !Z.shiftr_div_pow2 by lia.
  change (2 ^ 1) with 2.
  replace (16 * hi + lo) with (lo + (8 * hi) * 2) by lia.
  rewrite Z.div_add by lia.
  replace (lo / 2 + 8 * hi) with (lo / 2 + 2 * (4 * hi)) by lia.
  apply Z.odd_add_mul_2.
Qed.

Lemma and2_is_bit1 (lo : Z) : 0 <= lo <= 15 -> (0 =? Z.land 2 lo) = negb (Z.testbit lo 1).
Proof.
  intros Hlo.
  assert (Hcases : lo = 0 \/ lo = 1 \/ lo = 2 \/ lo = 3 \/ lo = 4 \/ lo = 5
                   \/ lo = 6 \/ lo = 7 \/ lo = 8 \/ lo = 9 \/ lo = 10 \/ lo = 11
                   \/ lo = 12 \/ lo = 13 \/ lo = 14 \/ lo = 15) by lia.
  repeat (destruct Hcases as [-> | Hcases]; [reflexivity |]).
  subst lo. reflexivity.
Qed.

(** X15. For an address that starts with two hexadecimal digits, the filter
    keeps it exactly when bit 1 of the first octet (the locally administered
    bit) is clear and its first eight characters, upper-cased, are not
    "00:00:5E". *)
Theorem filter_keeps_universal_addresses
        (m : WifiNetwork) (c1 c2 : ascii) (rest : string) (hi lo : Z) :
  macAddress m = String c1 (String c2 rest) ->
  hexValue c1 = Some hi ->
  hexValue c2 = Some lo ->
  keeps m
  = negb (Z.testbit (16 * hi + lo) 1)
    && negb (String.eqb (toUpperCase (String.substring 0 8 (macAddress m))) "00:00:5E").
Proof.
  intros Hmac Hhi Hlo.
  pose proof (hexValue_range c2 lo Hlo) as Hrange.
  unfold keeps, parseSecondHex. rewrite Hmac. cbn [String.get Nat.eqb Nat.pred].
  rewrite Hlo. cbn [and2].
  rewrite (and2_is_bit1 lo Hrange), (bit1_of_low_nibble hi lo Hrange).
  reflexivity.
Qed.

(** X15, the theorem at a universal address and at a locally administered
    one. *)
Lemma filter_witness :
  keeps Shapes.universal = true /\ keeps Shapes.local = false.
Proof.
  split.
  - exact (filter_keeps_universal_addresses
             Shapes.universal "3" "C" ":5A:B4:01:02:03" 3 12 eq_refl eq_refl eq_refl).
  - exact (filter_keeps_universal_addresses
             Shapes.local "0" "2" ":00:00:00:00:01" 0 2 eq_refl eq_refl eq_refl).
Defined.

Lemma upper_zero (c : ascii) : upper c = "0"%char -> c = "0"%char.
Proof.
  destruct c as [[] [] [] [] [] [] [] []]; vm_compute; intros H;
    first [reflexivity | discriminate H].
Qed.

(** X16. An address shorter than two characters, or whose second character
    is not a hexadecimal digit, always passes the filter. *)
Theorem filter_passes_malformed_addresses (m : WifiNetwork) :
  parseSecondHex (macAddress m) = None -> keeps m = true.
Proof.
  intros Hnan. unfold keeps. rewrite Hnan. cbn [and2 Z.eqb andb].
  apply negb_true_iff. apply String.eqb_neq. intros Heq.
  unfold parseSecondHex in Hnan.
  destruct (macAddress m) as [| c1 [| c2 rest]]; cbn in Heq; try discriminate Heq.
  cbn [String.get Nat.eqb Nat.pred] in Hnan.
  injection Heq as _ H2 _.
  apply upper_zero in H2. subst c2. discriminate Hnan.
Qed.

(** X16, the theorem at the empty address. *)
Lemma filter_malformed_witness :
  keeps (mkWifiNetwork "" 0%float None None None) = true.
Proof.
  exact (filter_passes_malformed_addresses
           (mkWifiNetwork "" 0%float None None None) eq_refl).
Defined.

(** X17. When the filtering [scanWifiNetworks] returns, it made exactly one
    request, the status was a success, the body carried no error text, and
    the list returned is the scanned list with the addresses the filter
    rejects removed and nothing else changed. *)
Theorem scan_returns_the_filtered_list
        (w w' : World WifiResponse) (l : list WifiNetwork) :
  Filtered.scanWifiNetworks w = (Normal l, w') ->
  exists st data rest all,
    responses w = Responds st data :: rest
    /\ ok st = true
    /\ truthyKey (error data) = false
    /\ networks data = Some all
    /\ l = filter keeps all
    /\ Forall (fun m => keeps m = true) l
    /\ w' = mkWorld (stored w) (apiKeyState w) (answers w) rest
                    (trace w ++ [Fetch WIFI_API_URL None]).
Proof.
  unfold Filtered.scanWifiNetworks, tryCatch, bind, fetch, emit.
  intros H.
  destruct (responses w) as [| [n m | st data] rest] eqn:Hr;
    try (unfold throw in H; discriminate H).
  destruct (networks data) as [all |] eqn:Hn; [| unfold throw in H; discriminate H].
  cbv zeta in H.
  destruct (ok st) eqn:Hok; cbn [negb] in H; [| unfold throw in H; discriminate H].
  assert (Herr : truthyKey (error data) = false
                 /\ (Normal (filter keeps all),
                     mkWorld (stored w) (apiKeyState w) (answers w) rest
                             (trace w ++ [Fetch WIFI_API_URL None]))
                    = (Normal l, w')).
  { destruct (error data) as [e |]; cbn.
    - destruct (truthyStr e); [unfold throw in H; discriminate H |].
      split; [reflexivity | exact H].
    - split; [reflexivity | exact H]. }
  destruct Herr as [Herr E]. injection E as <- <-.
  exists st, data, rest, all. repeat split; trivial.
  apply Forall_forall. intros x Hx. apply filter_In in Hx. tauto.
Qed.

(** X17, the theorem at a scan of one universal and one local address. *)
Lemma scan_witness :
  exists st data rest all,
    responses Shapes.scanWorld = Responds st data :: rest
    /\ ok st = true
    /\ truthyKey (error data) = false
    /\ networks data = Some all
    /\ [Shapes.universal] = filter keeps all
    /\ Forall (fun m => keeps m = true) [Shapes.universal]
    /\ mkWorld None None [] [] [Fetch WIFI_API_URL None]
       = mkWorld (stored Shapes.scanWorld) (apiKeyState Shapes.scanWorld)
                 (answers Shapes.scanWorld) rest
                 (trace Shapes.scanWorld ++ [Fetch WIFI_API_URL None]).
Proof.
  exact (scan_returns_the_filtered_list
           Shapes.scanWorld (mkWorld None None [] [] [Fetch WIFI_API_URL None])
           [Shapes.universal] eq_refl).
Defined.

(** X18. The two versions of [scanWifiNetworks] against the same world: they
    make the same request and leave the same world. When the body that
    arrives has no [networks], the filtering one throws the TypeError of the
    failed [filter] call, whatever the status and the error text say. In
    every other case it ends as the plain one does, with the list filtered:
    the same list filtered where the plain one returns, the very same error
    where the plain one throws. *)
Theorem filtering_scan_refines_plain_scan (w : World WifiResponse) :
  snd (Filtered.scanWifiNetworks w) = snd (Plain.scanWifiNetworks w)
  /\ fst (Filtered.scanWifiNetworks w)
     = (if lacksNetworks w then Throw filterTypeError
        else filteredOutcome (fst (Plain.scanWifiNetworks w)))
  /\ (lacksNetworks w = false ->
      forall t, fst (Plain.scanWifiNetworks w) = Throw t ->
                fst (Filtered.scanWifiNetworks w) = Throw t)
  /\ (forall all, fst (Plain.scanWifiNetworks w) = Normal (Some all) ->
                  fst (Filtered.scanWifiNetworks w) = Normal (filter keeps all)).
Proof.
  assert (Hmain : snd (Filtered.scanWifiNetworks w) = snd (Plain.scanWifiNetworks w)
                  /\ fst (Filtered.scanWifiNetworks w)
                     = (if lacksNetworks w then Throw filterTypeError
                        else filteredOutcome (fst (Plain.scanWifiNetworks w)))).
  { unfold Filtered.scanWifiNetworks, Plain.scanWifiNetworks, tryCatch, bind, fetch,
      throw, ret, emit, lacksNetworks, filteredOutcome, filterTypeError.
    destruct (responses w) as [| [n m | st data] rest]; cbn; auto.
    destruct (networks data) as [all |]; destruct (ok st); cbn;
      destruct (error data) as [e |]; cbn; try destruct (truthyStr e); cbn; auto. }
  destruct Hmain as [Hworld Hout].
  split; [exact Hworld |]. split; [exact Hout |]. split.
  - intros Hhas t Ht. rewrite Hout, Hhas, Ht. reflexivity.
  - intros all Hall. rewrite Hout, Hall.
    destruct (lacksNetworks w) eqn:Hlacks; [| reflexivity].
    exfalso. revert Hall Hlacks.
    unfold Plain.scanWifiNetworks, tryCatch, bind, fetch, throw, ret, emit, lacksNetworks.
    destruct (responses w) as [| [n m | st data] rest]; cbn; try discriminate.
    destruct (networks data) as [l |]; [discriminate |].
    destruct (ok st); cbn; [| discriminate].
    destruct (error data) as [e |]; cbn; [destruct (truthyStr e); cbn |]; discriminate.
Qed.

End WifiScan.

(** ** Further properties: the credential store and the Wi-Fi list *)

Section StoreAndList.

Import Storage.

Lemma getItem_removeItem_same (key : string) (ls : LocalStorage) :
  getItem key (removeItem key ls) = None.
Proof.
  induction ls as [| [k v] rest IH]; cbn; [reflexivity |].
  destruct (String.eqb k key) eqn:Hk; [exact IH |].
  cbn. rewrite Hk. exact IH.
Qed.

Lemma getItem_removeItem_other (key other : string) (ls : LocalStorage) :
  other <> key -> getItem other (removeItem key ls) = getItem other ls.
Proof.
  intros Hne. induction ls as [| [k v] rest IH]; cbn; [reflexivity |].
  destruct (String.eqb_spec k key) as [-> | Hk].
  - rewrite IH. destruct (String.eqb_spec key other) as [E | _]; [| reflexivity].
    congruence.
  - cbn. rewrite IH. reflexivity.
Qed.

Lemma removeItem_twice (key : string) (ls : LocalStorage) :
  removeItem key (removeItem key ls) = removeItem key ls.
Proof.
  induction ls as [| [k v] rest IH]; cbn; [reflexivity |].
  destruct (String.eqb k key) eqn:Hk; [exact IH |].
  cbn. rewrite Hk, IH. reflexivity.
Qed.

(** X19. The three storage functions agree on one key: a key stored is the
    key read back, whatever was stored before; after a removal nothing is
    read; storing and then removing is removing; and no other entry of
    [localStorage] is read differently after either. *)
Theorem stored_key_round_trip (ls : LocalStorage) (apiKey other : string) :
  other <> GOOGLE_API_KEY ->
  getStoredApiKey (setStoredApiKey apiKey ls) = Some apiKey
  /\ getStoredApiKey (removeStoredApiKey ls) = None
  /\ removeStoredApiKey (setStoredApiKey apiKey ls) = removeStoredApiKey ls
  /\ getItem other (setStoredApiKey apiKey ls) = getItem other ls
  /\ getItem other (removeStoredApiKey ls) = getItem other ls.
Proof.
  intros Hother.
  unfold getStoredApiKey, setStoredApiKey, removeStoredApiKey, setItem.
  generalize dependent GOOGLE_API_KEY. intros key Hother.
  split; [cbn [getItem]; rewrite String.eqb_refl; reflexivity |].
  split; [apply getItem_removeItem_same |].
  split; [cbn [removeItem]; rewrite String.eqb_refl; apply removeItem_twice |].
  split; [| apply getItem_removeItem_other; exact Hother].
  cbn [getItem].
  destruct (String.eqb_spec key other) as [E | _]; [congruence |].
  apply getItem_removeItem_other. exact Hother.
Qed.

(** X19, the theorem at a store holding an older key and a theme. *)
Lemma stored_key_witness :
  getStoredApiKey (setStoredApiKey "new" Shapes.store) = Some "new"
  /\ getStoredApiKey (removeStoredApiKey Shapes.store) = None
  /\ removeStoredApiKey (setStoredApiKey "new" Shapes.store)
     = removeStoredApiKey Shapes.store
  /\ getItem "theme" (setStoredApiKey "new" Shapes.store) = getItem "theme" Shapes.store
  /\ getItem "theme" (removeStoredApiKey Shapes.store) = getItem "theme" Shapes.store.
Proof.
  refine (stored_key_round_trip Shapes.store "new" "theme" _).
  discriminate.
Defined.

(** X20. However often the Wi-Fi effect runs and whatever arrives, the list
    of access points the remote provider holds never has more than one
    entry. *)
Theorem wifi_list_has_at_most_one_entry (runs : list (bool * option WifiNetwork)) :
  (List.length (WifiEffect.effects runs) <= 1)%nat.
Proof.
  unfold WifiEffect.effects.
  assert (Hgen : forall l : list WifiNetwork,
             (List.length l <= 1)%nat ->
             (List.length (fold_left (fun l x => WifiEffect.effect (fst x) (snd x) l) runs l)
              <= 1)%nat).
  { induction runs as [| [u a] rest IH]; intros l Hl; cbn [fold_left]; [exact Hl |].
    apply IH. unfold WifiEffect.effect. cbn [fst snd].
    destruct u; [destruct a |]; cbn; lia. }
  apply Hgen. cbn. lia.
Qed.

End StoreAndList.

(** ** Further properties: the map *)

Section MapTracking.

Import MapView.

Lemma onLocations_cons (x : option LocationData) (rest : list (option LocationData))
      (r : Refs) :
  onLocations (x :: rest) r = onLocations rest (onLocation x r).
Proof. reflexivity. Qed.

Lemma isSetView_count_app (a b : list Call) :
  List.length (filter isSetView (a ++ b))
  = (List.length (filter isSetView a) + List.length (filter isSetView b))%nat.
Proof. rewrite filter_app, length_app. reflexivity. Qed.

(** X21. On a mounted map that already shows a marker, a history of
    locations moves marker and circle to the last location of the history
    and never moves the view; on a mounted map without a marker the view is
    set once, to the first location at zoom 15, and not again. A null
    location changes nothing. *)
Theorem marker_follows_and_view_is_set_once
        (history : list (option LocationData)) :
  forall (r : Refs) (v : View),
    mapRef r = Some v ->
    (markerRef r = None <-> circleRef r = None) ->
    markerRef (onLocations history r)
    = match lastSome history with
      | Some l => Some (markerAt l)
      | None => markerRef r
      end
    /\ circleRef (onLocations history r)
       = match lastSome history with
         | Some l => Some (circleAt l)
         | None => circleRef r
         end
    /\ mapRef (onLocations history r)
       = match markerRef r, firstSome history with
         | None, Some l => Some (mkView (lat l) (lon l) 15)
         | _, _ => Some v
         end
    /\ List.length (filter isSetView (calls (onLocations history r)))
       = (List.length (filter isSetView (calls r))
          + match markerRef r, firstSome history with
            | None, Some _ => 1
            | _, _ => 0
            end)%nat.
Proof.
  induction history as [| x rest IH]; intros r v Hmap Hboth.
  - cbn. rewrite Hmap. destruct (markerRef r); repeat split; lia.
  - rewrite onLocations_cons. destruct x as [l |].
    + (* a location: marker and circle exist from here on *)
      set (r1 := onLocation (Some l) r).
      assert (Hmap1 : mapRef r1
                      = Some (match markerRef r with
                              | None => mkView (lat l) (lon l) 15
                              | Some _ => v
                              end)).
      { unfold r1, onLocation. rewrite Hmap. reflexivity. }
      assert (Hmk1 : markerRef r1 = Some (markerAt l)).
      { unfold r1, onLocation. rewrite Hmap. reflexivity. }
      assert (Hci1 : circleRef r1 = Some (circleAt l)).
      { unfold r1, onLocation. rewrite Hmap. reflexivity. }
      assert (Hcalls1 : List.length (filter isSetView (calls r1))
                        = (List.length (filter isSetView (calls r))
                           + match markerRef r with None => 1 | Some _ => 0 end)%nat).
      { unfold r1, onLocation. rewrite Hmap. cbn [calls].
        rewrite isSetView_count_app. f_equal.
        destruct (markerRef r), (circleRef r); reflexivity. }
      assert (Hboth1 : markerRef r1 = None <-> circleRef r1 = None).
      { rewrite Hmk1, Hci1. split; discriminate. }
      destruct (IH r1 _ Hmap1 Hboth1) as (Hm & Hc & Hv & Hn).
      rewrite Hmk1 in Hm, Hv, Hn. rewrite Hci1 in Hc.
      cbn [lastSome firstSome].
      split; [rewrite Hm; destruct (lastSome rest); reflexivity |].
      split; [rewrite Hc; destruct (lastSome rest); reflexivity |].
      split; [rewrite Hv; destruct (markerRef r); reflexivity |].
      rewrite Hn, Hcalls1. destruct (markerRef r); lia.
    + (* null: skipped *)
      assert (Hskip : onLocation None r = r) by reflexivity.
      rewrite Hskip. destruct (IH r v Hmap Hboth) as (Hm & Hc & Hv & Hn).
      cbn [lastSome firstSome].
      split; [rewrite Hm; destruct (lastSome rest); reflexivity |].
      split; [rewrite Hc; destruct (lastSome rest); reflexivity |].
      split; assumption.
Qed.

(** X21, the theorem on a freshly mounted map shown Paris, nothing, then
    Rome. *)
Lemma marker_witness :
  markerRef (onLocations [Some Shapes.paris; None; Some Shapes.rome] (mount unmounted))
  = Some (markerAt Shapes.rome)
  /\ circleRef (onLocations [Some Shapes.paris; None; Some Shapes.rome] (mount unmounted))
     = Some (circleAt Shapes.rome)
  /\ mapRef (onLocations [Some Shapes.paris; None; Some Shapes.rome] (mount unmounted))
     = Some (mkView (VNum 48%float) (VNum 2%float) 15)
  /\ List.length
       (filter isSetView
          (calls (onLocations [Some Shapes.paris; None; Some Shapes.rome]
                              (mount unmounted))))
     = 1%nat.
Proof.
  refine (marker_follows_and_view_is_set_once
            [Some Shapes.paris; None; Some Shapes.rome]
            (mount unmounted) (mkView (VNum 0%float) (VNum 0%float) 2) eq_refl _).
  split; reflexivity.
Defined.

(** X22. Without a map nothing is drawn: after [unmount] all three refs are
    empty and every later location is skipped; mounting and unmounting twice
    is as good as once; and the first location after a remount sets the view
    again. *)
Theorem map_lifecycle (r : Refs) (history : list (option LocationData))
        (l : LocationData) :
  onLocations history (unmount r) = unmount r
  /\ mapRef (unmount r) = None
  /\ markerRef (unmount r) = None
  /\ circleRef (unmount r) = None
  /\ unmount (unmount r) = unmount r
  /\ mount (mount r) = mount r
  /\ mapRef (onLocation (Some l) (mount (unmount r)))
     = Some (mkView (lat l) (lon l) 15).
Proof.
  assert (Hnone : mapRef (unmount r) = None /\ markerRef (unmount r) = None
                  /\ circleRef (unmount r) = None).
  { unfold unmount. destruct (mapRef r); repeat split. }
  destruct Hnone as (Hmap & Hmk & Hci).
  split.
  { induction history as [| x rest IH]; [reflexivity |].
    rewrite onLocations_cons.
    assert (Hskip : onLocation x (unmount r) = unmount r).
    { unfold onLocation. rewrite Hmap. destruct x; reflexivity. }
    rewrite Hskip. exact IH. }
  repeat (split; [assumption |]).
  split; [unfold unmount at 1; rewrite Hmap; unfold unmount;
          destruct (mapRef r); reflexivity |].
  split.
  - unfold mount at 1. destruct (mapRef (mount r)) eqn:Hm; [reflexivity |].
    unfold mount in Hm. destruct (mapRef r) eqn:Hr; [congruence | discriminate Hm].
  - unfold onLocation, mount. rewrite Hmap. cbn. rewrite Hmk. reflexivity.
Qed.

End MapTracking.

(** ** Further properties: the controller over time *)

Section ControllerOverTime.

Import App Controls.

Lemma step_consistent (s : State) (a : Action) : consistent s -> consistent (step s a).
Proof.
  unfold consistent. intros (Hprov & Hacc & Hload & Htoast).
  destruct a; cbn [step];
    [ unfold handleLocationUpdate;
      destruct (negb (provider ld =? currentProviderRef s)%string); [tauto |]
    | unfold handleError; destruct (project capturedTimeout e) as [[msg det] toastMsg]
    | .. ];
    cbn; repeat split; trivial; try discriminate;
    try (apply Hload; assumption).
Qed.

Lemma run_consistent (actions : list Action) :
  forall s : State, consistent s -> consistent (run actions s).
Proof.
  induction actions as [| a rest IH]; intros s Hs; [exact Hs |].
  cbn [run fold_left]. apply IH. apply step_consistent. exact Hs.
Qed.

(** X9. Whatever the providers report and the user does, from the initial
    state on: the provider state and the provider ref agree; the accuracy
    text is that of the result shown; while loading, neither a result nor a
    failure is shown; and a toast, when there is one, is an error toast,
    which [Toast] draws red with the icon. *)
Theorem controller_stays_consistent (actions : list Action) :
  consistent (run actions initial)
  /\ match toast (run actions initial) with
     | Some t =>
         Toast.boxClass (toastType t)
         = "bg-red-100 border-l-4 border-red-500 text-red-700"
         /\ Toast.hasIcon (toastType t) = true
     | None => True
     end.
Proof.
  assert (Hc : consistent (run actions initial)).
  { apply run_consistent. unfold consistent. cbn. repeat split; trivial; discriminate. }
  split; [exact Hc |].
  destruct Hc as (_ & _ & _ & Ht).
  destruct (toast (run actions initial)) as [t |]; [| exact I].
  rewrite Ht. split; reflexivity.
Qed.

(** X23. The dot and the status text always say the same thing, although
    the two pick their case in different orders: green with "Live tracking
    active", red with "Tracking inactive", yellow with "Getting
    location...", and gray otherwise. *)
Theorem dot_agrees_with_status_message (s : State) :
  (dot s = "bg-green-500 animate-pulse"
   <-> statusMessage s = Normal "Live tracking active")
  /\ (dot s = "bg-red-500" <-> statusMessage s = Normal "Tracking inactive")
  /\ (dot s = "bg-yellow-500" <-> statusMessage s = Normal "Getting location...")
  /\ (dot s = "bg-gray-400"
      <-> (exists name,
              providerName (currentProviderRef s) = Some name
              /\ statusMessage s = Normal ("Using " ++ name))
          \/ (exists t, statusMessage s = Throw t)).
Proof.
  unfold dot, StatusIndicator.dotClass, statusMessage, isLiveActive.
  destruct (error s) as [e |]; destruct (loading s);
    destruct ((currentProviderRef s =? "navigator")%string) eqn:Hnav;
    destruct (liveTracking s); cbn;
    try (apply String.eqb_eq in Hnav; rewrite Hnav; cbn);
    try (unfold providerName; rewrite ?Hnav;
         destruct ((currentProviderRef s =? "google")%string);
         [| destruct ((currentProviderRef s =? "ip")%string)]; cbn);
    repeat split; intros H;
    try discriminate H; try reflexivity;
    try (destruct H as [(name & Hn & Hm) | (t & Ht)]; discriminate);
    try (left; eexists; split; reflexivity);
    try (right; eexists; reflexivity).
Qed.

(** X24. A toast stays until it is closed: no callback and no control other
    than its close button takes it away, in particular not a later successful
    update; and closing it leaves the failure panel as it is. *)
Theorem toast_stays_until_closed (actions : list Action) :
  forall s : State,
    toast s <> None ->
    forallb (fun a => negb (isCloseToast a)) actions = true ->
    toast (run actions s) <> None
    /\ error (closeToast (run actions s)) = error (run actions s)
    /\ toast (closeToast (run actions s)) = None.
Proof.
  induction actions as [| a rest IH]; intros s Hs Hno.
  - cbn. repeat split; trivial.
  - cbn [forallb] in Hno. apply andb_true_iff in Hno. destruct Hno as [Ha Hrest].
    cbn [run fold_left]. apply IH; [| exact Hrest].
    destruct a; cbn [step isCloseToast negb] in *; try discriminate Ha; trivial.
    + unfold handleLocationUpdate.
      destruct (negb (provider ld =? currentProviderRef s)%string); trivial.
    + unfold handleError. destruct (project capturedTimeout e) as [[m d] tm].
      cbn. discriminate.
Qed.

(** X24, the theorem at a failure followed by a successful update. *)
Lemma toast_witness :
  toast (run [LocationUpdate Scenario.googleFix]
             (handleError 10 (Structured GoogleProvider.rateLimitError) Scenario.switched))
  <> None
  /\ error (closeToast
              (run [LocationUpdate Scenario.googleFix]
                   (handleError 10 (Structured GoogleProvider.rateLimitError)
                                Scenario.switched)))
     = error (run [LocationUpdate Scenario.googleFix]
                  (handleError 10 (Structured GoogleProvider.rateLimitError)
                               Scenario.switched))
  /\ toast (closeToast
              (run [LocationUpdate Scenario.googleFix]
                   (handleError 10 (Structured GoogleProvider.rateLimitError)
                                Scenario.switched)))
     = None.
Proof.
  refine (toast_stays_until_closed
            [LocationUpdate Scenario.googleFix]
            (handleError 10 (Structured GoogleProvider.rateLimitError) Scenario.switched)
            _ eq_refl).
  cbn. discriminate.
Defined.

(** X8. The last switch decides everything: switching to one provider and
    then to another leaves the state and issues the commands of switching to
    the second alone (so switching twice to the same provider is switching
    once); and with state and ref in agreement, Refresh is a switch to the
    active provider. *)
Theorem last_switch_wins (first second : string) (s : State) :
  currentProvider s = currentProviderRef s ->
  handleProviderChange second (fst (handleProviderChange first s))
  = handleProviderChange second s
  /\ refreshLocation s = handleProviderChange (currentProviderRef s) s
  /\ refreshLocation (fst (handleProviderChange first s)) = handleProviderChange first s.
Proof.
  intros Hagree. unfold refreshLocation, handleProviderChange, startLocationWatch.
  cbn. rewrite Hagree. repeat split.
Qed.

(** X8, the theorem from the initial state. *)
Lemma last_switch_witness :
  handleProviderChange "ip" (fst (handleProviderChange "google" initial))
  = handleProviderChange "ip" initial
  /\ refreshLocation initial = handleProviderChange (currentProviderRef initial) initial
  /\ refreshLocation (fst (handleProviderChange "google" initial))
     = handleProviderChange "google" initial.
Proof.
  exact (last_switch_wins "google" "ip" initial eq_refl).
Defined.

(** X25. A failure absorbs the failure before it, so one that reaches the
    controller twice, through [onError] and through the rejected promise, is
    shown as if it had come once; and the three texts shown are never empty,
    whatever is handed to [handleError]. *)
Theorem failure_shown_once_and_never_empty
        (t t' : Z) (e e' : AnyError) (l : LocationError)
        (callbacks : list Event) (s : State) :
  handleError t e (handleError t' e' s) = handleError t e s
  /\ settle t (callbacks ++ [OnError l]) (Throw (ThrownLocation l)) s
     = handleError t (Structured l) (fold_left (callback t) callbacks s)
  /\ truthyStr (fst (fst (project t e))) = true
  /\ truthyStr (snd (fst (project t e))) = true
  /\ truthyStr (snd (project t e)) = true.
Proof.
  assert (Habsorb : forall a a' x x' st,
             handleError a x (handleError a' x' st) = handleError a x st).
  { intros a a' x x' st. unfold handleError.
    destruct (project a x) as [[m d] tm], (project a' x') as [[m' d'] tm'].
    reflexivity. }
  split; [apply Habsorb |].
  split.
  { unfold settle. rewrite fold_left_app. cbn [fold_left callback ofThrown].
    apply Habsorb. }
  assert (Hunknown : forall msg,
             truthyStr (orElse (Some msg) "Unknown error occurred") = true).
  { intros msg. apply orElse_truthy. reflexivity. }
  unfold project.
  destruct e as [le | code msg | name msg]; cbn [errorMessageOf].
  - destruct (truthyStr (userMessage le)) eqn:Hm;
      destruct (truthyStr (userDetails le)) eqn:Hd; cbn [andb fst snd];
      repeat split; auto.
  - destruct (code =? 0); [cbn [fst snd]; repeat split; auto |].
    destruct (code =? 1); [repeat split |].
    destruct (code =? 2); [repeat split |].
    destruct (code =? 3); [repeat split |].
    cbn [fst snd]. repeat split. apply orElse_truthy. reflexivity.
  - cbn [fst snd]. repeat split; auto.
Qed.

End ControllerOverTime.

(** ** Further properties: the device provider and the IP provider over a run *)

Section DeviceRuns.

Import NavigatorProvider.

Lemma filter_keeps_smaller (id : Z) (l : list Z) :
  Forall (fun w => w < id) l -> filter (fun w => negb (w =? id)) l = l.
Proof.
  induction 1 as [| w rest Hw _ IH]; cbn; [reflexivity |].
  destruct (Z.eqb_spec w id) as [E | _]; [lia |]. cbn. rewrite IH. reflexivity.
Qed.

Lemma idsFrom_succ (first : Z) (n : nat) :
  idsFrom first (S n) = (idsFrom first n ++ [first + Z.of_nat n])%list.
Proof.
  unfold idsFrom. rewrite seq_S, map_app. reflexivity.
Qed.

Lemma idsFrom_below (first : Z) (n : nat) :
  Forall (fun w => w < first + Z.of_nat n) (idsFrom first n).
Proof.
  unfold idsFrom. apply Forall_forall. intros w Hin.
  apply in_map_iff in Hin. destruct Hin as (i & <- & Hi).
  apply in_seq in Hi. lia.
Qed.

(** After [n] live starts in a row the device holds a watch for each of
    them, and the ref points at the last. *)
Lemma starts_shape (p : Props) (d : Device) (n : nat) :
  liveTracking p = true ->
  supported d = true ->
  starts p (S n) d
  = mkDevice true (Some (nextWatchId d + Z.of_nat n))
             (nextWatchId d + Z.of_nat (S n))
             (watching d ++ idsFrom (nextWatchId d) (S n))
             (cleared d).
Proof.
  intros Hlive Hsup. induction n as [| n IH].
  - cbn [starts]. unfold getLocation. rewrite Hsup, Hlive. cbn.
    rewrite ?Z.add_0_r. reflexivity.
  - change (starts p (S (S n)) d) with (snd (getLocation p (starts p (S n) d))).
    rewrite IH. unfold getLocation. rewrite Hlive. cbn [supported negb snd nextWatchId
                                                         watching cleared].
    rewrite (idsFrom_succ (nextWatchId d) (S n)), <- app_assoc.
    replace (nextWatchId d + Z.of_nat (S (S n)))
      with (nextWatchId d + Z.of_nat (S n) + 1) by lia.
    reflexivity.
Qed.

(** X6. Start and stop, and what stop misses. On a device whose watch
    identifiers are fresh, [n + 1] live [getLocation] calls followed by one
    [cleanup] leave the ref empty and clear exactly one watch, the last one
    started: the [n] watches started before it stay registered. With [n = 0]
    the watches are those there were before the start. *)
Theorem cleanup_clears_only_the_last_watch (p : Props) (d : Device) (n : nat) :
  liveTracking p = true ->
  supported d = true ->
  freshIds d ->
  cleanup (starts p (S n) d)
  = Normal (mkDevice true None (nextWatchId d + Z.of_nat (S n))
                     (watching d ++ idsFrom (nextWatchId d) n)
                     (cleared d ++ [nextWatchId d + Z.of_nat n]))
  /\ freshIds (mkDevice true None (nextWatchId d + Z.of_nat (S n))
                        (watching d ++ idsFrom (nextWatchId d) n)
                        (cleared d ++ [nextWatchId d + Z.of_nat n])).
Proof.
  intros Hlive Hsup (Hpos & Hbelow). split.
  - rewrite (starts_shape p d n Hlive Hsup). unfold cleanup.
    cbn [watchIdRef supported nextWatchId watching cleared].
    destruct (Z.eqb_spec (nextWatchId d + Z.of_nat n) 0) as [E | _]; [lia |].
    cbn [negb]. rewrite idsFrom_succ, app_assoc, filter_app.
    rewrite filter_keeps_smaller.
    + cbn. rewrite Z.eqb_refl. cbn. rewrite app_nil_r. reflexivity.
    + apply Forall_app. split.
      * eapply Forall_impl; [| exact Hbelow]. cbn. intros w Hw. lia.
      * apply idsFrom_below.
  - unfold freshIds. cbn [nextWatchId watching]. split; [lia |].
    apply Forall_app. split.
    + eapply Forall_impl; [| exact Hbelow]. cbn. intros w Hw. lia.
    + eapply Forall_impl; [| apply idsFrom_below]. cbn. intros w Hw. lia.
Qed.

(** X6, the theorem at three live starts on an idle device. *)
Lemma cleanup_last_watch_witness :
  cleanup (starts (mkProps 10 true) 3 Scenario.idle)
  = Normal (mkDevice true None 4 [1; 2] [3])
  /\ freshIds (mkDevice true None 4 [1; 2] [3]).
Proof.
  refine (cleanup_clears_only_the_last_watch (mkProps 10 true) Scenario.idle 2
                                             eq_refl eq_refl _).
  split; [reflexivity | constructor].
Defined.

Lemma handleError_presentable (p : Props) (err : PositionError) (a : Acquisition)
      (e : LocationError) :
  promise a = Pending ->
  promise (handleError p err a) = Rejected e ->
  presentable e = true /\ message e = errorText err.
Proof.
  intros Hpend. unfold handleError.
  destruct (code err =? PERMISSION_DENIED);
    [| destruct (code err =? POSITION_UNAVAILABLE);
       [| destruct (code err =? TIMEOUT)]];
    cbn; rewrite Hpend; cbn; intros E; injection E as <-; split; reflexivity.
Qed.

(** X7. Whatever the device reports and in whatever order, a promise of
    the device provider that ends rejected carries a [LocationError] with
    both user texts non-empty, which the controller shows as they are: the
    not-supported failure, or the translation of the first platform error. *)
Theorem device_rejections_are_presentable
        (p : Props) (d : Device) (signals : list Signal) (e : LocationError)
        (captured : Z) :
  promise (deliverAll p signals (fst (getLocation p d))) = Rejected e ->
  presentable e = true
  /\ App.project captured (App.Structured e)
     = (userMessage e, userDetails e, userMessage e).
Proof.
  assert (Hgen : forall (sigs : list Signal) (a : Acquisition),
             (forall x, promise a = Rejected x -> presentable x = true) ->
             forall x, promise (deliverAll p sigs a) = Rejected x -> presentable x = true).
  { induction sigs as [| s rest IH]; intros a Ha x; cbn [deliverAll fold_left];
      [apply Ha |].
    apply (IH (deliver p a s)). intros y Hy.
    destruct (promise a) eqn:Hp.
    - destruct s as [position | err]; cbn [deliver] in Hy.
      + cbn in Hy. rewrite Hp in Hy. discriminate Hy.
      + exact (proj1 (handleError_presentable p err a y Hp Hy)).
    - rewrite (deliver_settled p a s) in Hy by (rewrite Hp; discriminate).
      rewrite Hp in Hy. discriminate Hy.
    - rewrite (deliver_settled p a s) in Hy by (rewrite Hp; discriminate).
      apply Ha. rewrite <- Hp. exact Hy. }
  intros Hrej.
  assert (Hpres : presentable e = true).
  { apply (Hgen signals (fst (getLocation p d))); [| exact Hrej].
    intros x. unfold getLocation.
    destruct (supported d); cbn [negb]; [destruct (liveTracking p) |]; cbn;
      intros E; try discriminate E.
    injection E as <-. reflexivity. }
  split; [exact Hpres |].
  unfold presentable in Hpres. cbn. rewrite Hpres. reflexivity.
Qed.

(** X7, the theorem at a timeout reported before any reading. *)
Lemma device_rejection_witness :
  presentable (newLocationError "Timeout expired" "Location request timeout"
                                (timeoutDetails 10)) = true
  /\ App.project 10 (App.Structured
                       (newLocationError "Timeout expired" "Location request timeout"
                                         (timeoutDetails 10)))
     = ("Location request timeout", timeoutDetails 10, "Location request timeout").
Proof.
  exact (device_rejections_are_presentable
           (mkProps 10 true) Scenario.idle
           [Failure (mkPositionError 3 "Timeout expired"); Reading Scenario.fix1]
           (newLocationError "Timeout expired" "Location request timeout"
                             (timeoutDetails 10))
           10 eq_refl).
Defined.








End DeviceRuns.

Section IpRuns.

Import IpProvider.

(** X27. Every acquisition of the IP provider makes exactly one request and
    exactly one callback: the update callback with the result it returns
    (accuracy 5000, provider "ip", not live), or the error callback with the
    failure it throws, which is a [LocationError] with both user texts
    non-empty. *)
Theorem ip_one_request_one_callback (w : IWorld) :
  exists cb,
    trace (snd (getLocation w))
    = (trace w ++ [Fetch "https://ipapi.co/json/" None; cb])%list
    /\ match fst (getLocation w) with
       | Normal ld =>
           cb = OnLocationUpdate ld
           /\ accuracy ld = VNum 5000%float
           /\ provider ld = "ip"
           /\ isLive ld = false
       | Throw t =>
           exists e, t = ThrownLocation e /\ cb = OnError e /\ presentable e = true
       end.
Proof.
  unfold getLocation, tryCatch, tryBlock, catchBlock, bind, fetch, onLocationUpdate,
    onError, throw, ret, emit.
  destruct (responses w) as [| [n m | st data] rest]; cbn.
  - eexists. split; [repeat rewrite <- app_assoc; reflexivity |].
    eexists. repeat split.
  - eexists. split; [repeat rewrite <- app_assoc; reflexivity |].
    eexists. split; [reflexivity |]. split; [reflexivity |].
    destruct ((n =? "TypeError")%string && includes "fetch" m); [| reflexivity].
    unfold presentable. cbn.
    reflexivity.
  - destruct (ok st); cbn.
    + destruct (truthy (latitude data)), (truthy (longitude data)); cbn;
        eexists; (split; [repeat rewrite <- app_assoc; reflexivity |]);
        first [ repeat split; reflexivity | eexists; repeat split ].
    + destruct (st =? 429); cbn;
        eexists; (split; [repeat rewrite <- app_assoc; reflexivity |]);
        eexists; repeat split.
Qed.

End IpRuns.
